(** * Waksense, Ougi resource tracker: the log-line state machine

    A shallow embedding of [WakfuOugiResourceTracker.parse_log_line] and
    [WakfuOugiResourceTracker.add_spell_to_timeline]
    (src/Ougi/wakfu_ougi_resource_tracker.py), with the properties of the
    specification stated and settled on it.

    Layout
    - [PyStr]    Python [str] values: code points, [in], [strip], [int].
    - [Re]       the fragment of [re] the tracker's patterns use.
    - [Py]       a state monad with Python's control flow: early [return],
                 exceptions that keep the writes made before them,
                 [try/except].
    - [Tracker]  the object state, the two methods, and the vocabulary of
                 the statements.
    - [PyFacts], [Properties]  lemmas on blocks, and the properties of
                 the tracker.

    Calls that only print, read the clock or move, show and hide widgets
    are taken to succeed and are left out, as are the animation
    variables. *)

From Stdlib Require Import ZArith NArith String Ascii.
From stdpp Require Import gmap list.

Local Open Scope Z_scope.

(* ===================================================================== *)
(** ** Python strings *)
(* ===================================================================== *)

Module PyStr.

(** A Python [str] is a sequence of Unicode code points. *)
Definition char := N.
Definition str := list char.

(** Source literals are written as in the .py file and decoded from the
    UTF-8 bytes of the Rocq string literal. *)
Definition byte_of (a : ascii) : N := N_of_ascii a.

Fixpoint bytes_of (s : string) : list N :=
  match s with
  | EmptyString => []
  | String a r => byte_of a :: bytes_of r
  end.

Fixpoint utf8_decode (bs : list N) : str :=
  match bs with
  | [] => []
  | b0 :: r0 =>
    if (b0 <? 128)%N then b0 :: utf8_decode r0
    else if (b0 <? 224)%N then
      match r0 with
      | b1 :: r1 => ((b0 - 192) * 64 + (b1 - 128))%N :: utf8_decode r1
      | [] => []
      end
    else if (b0 <? 240)%N then
      match r0 with
      | b1 :: b2 :: r2 =>
        ((b0 - 224) * 4096 + (b1 - 128) * 64 + (b2 - 128))%N :: utf8_decode r2
      | _ => []
      end
    else
      match r0 with
      | b1 :: b2 :: b3 :: r3 =>
        ((b0 - 240) * 262144 + (b1 - 128) * 4096 + (b2 - 128) * 64 + (b3 - 128))%N
          :: utf8_decode r3
      | _ => []
      end
  end.

Definition u (s : string) : str := utf8_decode (bytes_of s).

Definition str_eqb (a b : str) : bool := bool_decide (a = b).

(** [prefix_rest p s]: what follows [p] when [s] starts with [p]. *)
Fixpoint prefix_rest (p s : str) : option str :=
  match p with
  | [] => Some s
  | c :: p' =>
    match s with
    | d :: s' => if (c =? d)%N then prefix_rest p' s' else None
    | [] => None
    end
  end.

(** [sub in s] *)
Fixpoint contains (sub s : str) : bool :=
  match prefix_rest sub s with
  | Some _ => true
  | None => match s with [] => false | _ :: s' => contains sub s' end
  end.

(** [str.isspace] on one character, which is also the class [\s] of [re]
    on [str] patterns: the ASCII controls 9-13 and 28-31, space, NEL,
    NBSP and the Unicode space separators. *)
Definition is_space (c : char) : bool :=
  ((9 <=? c) && (c <=? 13) || (28 <=? c) && (c <=? 32)
   || (c =? 133) || (c =? 160) || (c =? 5760)
   || (8192 <=? c) && (c <=? 8202)
   || (c =? 8232) || (c =? 8233) || (c =? 8239) || (c =? 8287)
   || (c =? 12288))%N.

(** Unicode decimal digits (category Nd), the class [\d] of [re] on [str]
    patterns and the digits [int] accepts: runs of ten consecutive code
    points, listed by the code point of their zero (Unicode 14). *)
Definition nd_zeros : list N :=
  [48; 1632; 1776; 1984; 2406; 2534; 2662; 2790; 2918; 3046; 3174; 3302;
   3430; 3558; 3664; 3792; 3872; 4160; 4240; 6112; 6160; 6470; 6608; 6784;
   6800; 6992; 7088; 7232; 7248; 42528; 43216; 43264; 43472; 43504; 43600;
   44016; 65296; 66720; 68912; 69734; 69872; 69942; 70096; 70384; 70736;
   70864; 71248; 71360; 71472; 71904; 72016; 72784; 73040; 73120; 92768;
   92864; 93008; 120782; 120792; 120802; 120812; 120822; 123200; 123632;
   125264; 130032]%N.

Fixpoint decimal_in (zs : list N) (c : char) : option N :=
  match zs with
  | [] => None
  | z :: zs' =>
    if ((z <=? c) && (c <? z + 10))%N then Some (c - z)%N else decimal_in zs' c
  end.

Definition decimal_value (c : char) : option N := decimal_in nd_zeros c.
Definition is_digit (c : char) : bool :=
  match decimal_value c with Some _ => true | None => false end.

(** The number a string of decimal digits (what [(\d+)] captures) writes. *)
Fixpoint int_acc (acc : Z) (s : str) : Z :=
  match s with
  | [] => acc
  | c :: s' =>
    int_acc (10 * acc + match decimal_value c with Some d => Z.of_N d | None => 0 end) s'
  end.

(** [sys.int_info.default_max_str_digits] of CPython 3.11 (and of 3.7 to
    3.10 from their security releases of September 2022 on): the longest
    string of digits [int] converts. Leading zeros and the digits of other
    scripts count like any digit. *)
Definition max_str_digits : Z := 4300.

(** [int(s)] on a string of decimal digits: its value, and [None] where
    [int] raises [ValueError], the string being longer than
    [max_str_digits]. *)
Definition int (s : str) : option Z :=
  if max_str_digits <? Z.of_nat (length s) then None else Some (int_acc 0 s).

(** [s.strip()] *)
Fixpoint lstrip (s : str) : str :=
  match s with
  | c :: s' => if is_space c then lstrip s' else s
  | [] => []
  end.
Definition rstrip (s : str) : str := rev (lstrip (rev s)).
Definition strip (s : str) : str := rstrip (lstrip s).

(** [s.replace(" ", "")] *)
Definition remove_spaces (s : str) : str :=
  List.filter (fun c => negb (c =? 32)%N) s.

(** Truthiness of a value that is [None] or a [str]. *)
Definition truthy (o : option str) : bool :=
  match o with
  | Some (_ :: _) => true
  | _ => false
  end.

(** A string that does not start with white space. *)
Definition clean_left (s : str) : Prop :=
  match s with
  | c :: _ => is_space c = false
  | [] => True
  end.

End PyStr.

(* ===================================================================== *)
(** ** Regular expressions *)
(* ===================================================================== *)

Module Re.
Import PyStr.

(** The tracker's patterns are built from literals, single-character
    classes, greedy [+] and [*] on a class, concatenation, ordered
    alternation and numbered capture groups. *)
Inductive regex : Type :=
| Lit (l : str)
| One (p : char -> bool)
| Many1 (p : char -> bool)
| Many0 (p : char -> bool)
| Cat (r1 r2 : regex)
| Alt (r1 r2 : regex)
| Grp (i : nat) (r : regex).

Definition captures := list (nat * str).

(** Greedy repetition of a class with backtracking: the longest run first,
    then shorter ones, until the continuation succeeds. *)
Fixpoint greedy {R} (p : char -> bool) (s : str) (k : str -> option R) : option R :=
  match s with
  | c :: s' =>
    if p c then
      match greedy p s' k with
      | Some x => Some x
      | None => k s
      end
    else k s
  | [] => k s
  end.

Fixpoint rmatch (r : regex) (s : str) (cs : captures)
    (k : str -> captures -> option captures) : option captures :=
  match r with
  | Lit l =>
    match prefix_rest l s with
    | Some s' => k s' cs
    | None => None
    end
  | One p =>
    match s with
    | c :: s' => if p c then k s' cs else None
    | [] => None
    end
  | Many1 p =>
    match s with
    | c :: s' => if p c then greedy p s' (fun t => k t cs) else None
    | [] => None
    end
  | Many0 p => greedy p s (fun t => k t cs)
  | Cat r1 r2 => rmatch r1 s cs (fun s' cs' => rmatch r2 s' cs' k)
  | Alt r1 r2 =>
    match rmatch r1 s cs k with
    | Some x => Some x
    | None => rmatch r2 s cs k
    end
  | Grp i r1 =>
    rmatch r1 s cs
      (fun s' cs' => k s' ((i, take (length s - length s')%nat s) :: cs'))
  end.

(** [re.search(r, s)]: the leftmost match. *)
Fixpoint search (r : regex) (s : str) : option captures :=
  match rmatch r s [] (fun _ cs => Some cs) with
  | Some cs => Some cs
  | None =>
    match s with
    | [] => None
    | _ :: s' => search r s'
    end
  end.

(** [m.group(i)] *)
Fixpoint group (i : nat) (m : captures) : str :=
  match m with
  | [] => []
  | (j, v) :: m' => if (i =? j)%nat then v else group i m'
  end.

Definition matched (m : option captures) : bool :=
  match m with Some _ => true | None => false end.

(** Character classes and pattern builders. *)
Definition none_of (l : str) : char -> bool :=
  fun c => negb (bool_decide (c ∈ l)).
Definition colon_or_space : char -> bool :=
  fun c => (c =? 58)%N || is_space c.
Definition any_but_newline : char -> bool :=
  fun c => negb (c =? 10)%N.

Definition lit (s : string) : regex := Lit (u s).

Fixpoint seq (rs : list regex) : regex :=
  match rs with
  | [] => Lit []
  | [r] => r
  | r :: rs' => Cat r (seq rs')
  end.

End Re.

(* ===================================================================== *)
(** ** Control flow of a Python method *)
(* ===================================================================== *)

Module Py.

Inductive exn : Type :=
| AttributeError (name : string)
| UnboundLocalError (name : string)
| ValueError.

(** How a block ends: it falls through with a value, executes [return],
    or raises. *)
Inductive outcome (A : Type) : Type :=
| Value (a : A)
| Return
| Raise (e : exn).
Arguments Value {A} a.
Arguments Return {A}.
Arguments Raise {A} e.

(** A block over an object state [S]. The state that comes out is the one
    at the point where the block ended: attribute writes made before a
    [return] or an exception stay. *)
Definition M (S A : Type) : Type := S -> S * outcome A.

Section Ops.
Context {S : Type}.

Definition ret {A} (a : A) : M S A := fun s => (s, Value a).

Definition bind {A B} (m : M S A) (f : A -> M S B) : M S B :=
  fun s =>
    match m s with
    | (s', Value a) => f a s'
    | (s', Return) => (s', Return)
    | (s', Raise e) => (s', Raise e)
    end.

Definition gets {A} (f : S -> A) : M S A := fun s => (s, Value (f s)).
Definition modify (f : S -> S) : M S unit := fun s => (f s, Value tt).
Definition return_ {A} : M S A := fun s => (s, Return).
Definition raise {A} (e : exn) : M S A := fun s => (s, Raise e).

Definition when (b : bool) (m : M S unit) : M S unit :=
  if b then m else ret tt.

(** [self.name] for an attribute that [__init__] may not have created. *)
Definition get_attr {A} (name : string) (f : S -> option A) : M S A :=
  fun s =>
    match f s with
    | Some a => (s, Value a)
    | None => (s, Raise (AttributeError name))
    end.

(** Reading a local variable that is bound on some paths only. *)
Definition read_local {A} (name : string) (v : option A) : M S A :=
  match v with
  | Some a => ret a
  | None => raise (UnboundLocalError name)
  end.

(** [int(s)] on a captured string of digits. *)
Definition to_int (s : PyStr.str) : M S Z :=
  match PyStr.int s with
  | Some n => ret n
  | None => raise ValueError
  end.

(** A call to another method: its [return] ends the callee only. *)
Definition call (m : M S unit) : M S unit :=
  fun s =>
    match m s with
    | (s', Return) => (s', Value tt)
    | r => r
    end.

(** [try: body / except Exception: pass] *)
Definition try_except_pass (m : M S unit) : M S unit :=
  fun s =>
    match m s with
    | (s', Raise _) => (s', Value tt)
    | r => r
    end.

(** The state a method leaves behind. *)
Definition exec {A} (m : M S A) (s : S) : S := fst (m s).
Definition result {A} (m : M S A) (s : S) : outcome A := snd (m s).

(** [keeps I m]: [m] preserves the state predicate [I], however it ends. *)
Definition keeps {A} (I : S -> Prop) (m : M S A) : Prop :=
  forall s, I s -> I (fst (m s)).

(** [stops m]: [m] never falls through to what follows it. *)
Definition stops {A} (m : M S A) : Prop :=
  forall s a, snd (m s) <> Value a.

End Ops.

Declare Scope py_scope.
Delimit Scope py_scope with py.
Notation "'let*' x ':=' m 'in' k" := (bind m (fun x => k))
  (at level 10, x name, m at level 100, k at level 200) : py_scope.
Notation "m1 >> m2" := (bind m1 (fun _ => m2))
  (at level 90, right associativity) : py_scope.

End Py.

(* ===================================================================== *)
(** ** The tracker *)
(* ===================================================================== *)

Module Tracker.
Import PyStr Re Py.
Local Open Scope py_scope.

(** *** The Python runtime

    [hash] on [str] is keyed per process, and the order in which a [set]
    is iterated is a matter of its hash table. Both are parameters. A set
    of integers is represented by the list of its elements in iteration
    order: [set_add x l] is the table after [l.add(x)] for an [x] not yet
    in it, [set_of_list l] the table [set(l)] builds. *)
Class Runtime : Type := {
  hash : str -> Z;
  set_add : Z -> list Z -> list Z;
  set_of_list : list Z -> list Z
}.

(** What every runtime guarantees of its sets. *)
Record RuntimeLaws (RT : Runtime) : Prop := {
  set_add_elem : forall x l y, y ∈ set_add x l <-> y = x \/ y ∈ l;
  set_of_list_elem : forall l y, y ∈ set_of_list l <-> y ∈ l
}.

(** *** Object state *)

(** A timeline entry, the dict built in [add_spell_to_timeline]. Its
    ['pixmap'], ['alpha'] and ['slide'] items belong to the drawing code
    and are left out. *)
Record TimelineEntry : Type := mkEntry {
  spell : str;
  cost : str
}.

(** The attributes of [WakfuOugiResourceTracker] that [parse_log_line] and
    [add_spell_to_timeline] read or write, widgets and animation variables
    apart. The last three are read by the methods but never created by
    [__init__]: [None] stands for an attribute the object does not have. *)
Record State : Type := mkState {
  rage : Z;
  tracker : Z;
  prey : bool;
  current_rage : Z;
  current_tracker : Z;
  current_prey : bool;
  pending_rage_loss : bool;
  rage_loss_caster : option str;
  rage_loss_spell : option str;
  in_combat : bool;
  tracked_player_name : option str;
  is_sac_patate_combat : bool;
  is_ougi_turn : bool;
  overlay_visible : bool;
  processed_lines : list Z;
  last_spell_caster : option str;
  last_etendard_cast : bool;
  timeline_entries : list TimelineEntry;
  ougi_spells : option (list str);
  spell_cost_map : option (gmap str str);
  current_turn_spells : option (list str)
}.

Definition set_rage (v : Z) (s : State) : State :=
  {| rage := v; tracker := tracker s; prey := prey s;
     current_rage := current_rage s; current_tracker := current_tracker s;
     current_prey := current_prey s;
     pending_rage_loss := pending_rage_loss s;
     rage_loss_caster := rage_loss_caster s;
     rage_loss_spell := rage_loss_spell s; in_combat := in_combat s;
     tracked_player_name := tracked_player_name s;
     is_sac_patate_combat := is_sac_patate_combat s;
     is_ougi_turn := is_ougi_turn s; overlay_visible := overlay_visible s;
     processed_lines := processed_lines s;
     last_spell_caster := last_spell_caster s;
     last_etendard_cast := last_etendard_cast s;
     timeline_entries := timeline_entries s; ougi_spells := ougi_spells s;
     spell_cost_map := spell_cost_map s;
     current_turn_spells := current_turn_spells s |}.
Definition set_tracker (v : Z) (s : State) : State :=
  {| rage := rage s; tracker := v; prey := prey s;
     current_rage := current_rage s; current_tracker := current_tracker s;
     current_prey := current_prey s;
     pending_rage_loss := pending_rage_loss s;
     rage_loss_caster := rage_loss_caster s;
     rage_loss_spell := rage_loss_spell s; in_combat := in_combat s;
     tracked_player_name := tracked_player_name s;
     is_sac_patate_combat := is_sac_patate_combat s;
     is_ougi_turn := is_ougi_turn s; overlay_visible := overlay_visible s;
     processed_lines := processed_lines s;
     last_spell_caster := last_spell_caster s;
     last_etendard_cast := last_etendard_cast s;
     timeline_entries := timeline_entries s; ougi_spells := ougi_spells s;
     spell_cost_map := spell_cost_map s;
     current_turn_spells := current_turn_spells s |}.
Definition set_prey (v : bool) (s : State) : State :=
  {| rage := rage s; tracker := tracker s; prey := v;
     current_rage := current_rage s; current_tracker := current_tracker s;
     current_prey := current_prey s;
     pending_rage_loss := pending_rage_loss s;
     rage_loss_caster := rage_loss_caster s;
     rage_loss_spell := rage_loss_spell s; in_combat := in_combat s;
     tracked_player_name := tracked_player_name s;
     is_sac_patate_combat := is_sac_patate_combat s;
     is_ougi_turn := is_ougi_turn s; overlay_visible := overlay_visible s;
     processed_lines := processed_lines s;
     last_spell_caster := last_spell_caster s;
     last_etendard_cast := last_etendard_cast s;
     timeline_entries := timeline_entries s; ougi_spells := ougi_spells s;
     spell_cost_map := spell_cost_map s;
     current_turn_spells := current_turn_spells s |}.
Definition set_current_rage (v : Z) (s : State) : State :=
  {| rage := rage s; tracker := tracker s; prey := prey s; current_rage := v;
     current_tracker := current_tracker s; current_prey := current_prey s;
     pending_rage_loss := pending_rage_loss s;
     rage_loss_caster := rage_loss_caster s;
     rage_loss_spell := rage_loss_spell s; in_combat := in_combat s;
     tracked_player_name := tracked_player_name s;
     is_sac_patate_combat := is_sac_patate_combat s;
     is_ougi_turn := is_ougi_turn s; overlay_visible := overlay_visible s;
     processed_lines := processed_lines s;
     last_spell_caster := last_spell_caster s;
     last_etendard_cast := last_etendard_cast s;
     timeline_entries := timeline_entries s; ougi_spells := ougi_spells s;
     spell_cost_map := spell_cost_map s;
     current_turn_spells := current_turn_spells s |}.
Definition set_current_tracker (v : Z) (s : State) : State :=
  {| rage := rage s; tracker := tracker s; prey := prey s;
     current_rage := current_rage s; current_tracker := v;
     current_prey := current_prey s;
     pending_rage_loss := pending_rage_loss s;
     rage_loss_caster := rage_loss_caster s;
     rage_loss_spell := rage_loss_spell s; in_combat := in_combat s;
     tracked_player_name := tracked_player_name s;
     is_sac_patate_combat := is_sac_patate_combat s;
     is_ougi_turn := is_ougi_turn s; overlay_visible := overlay_visible s;
     processed_lines := processed_lines s;
     last_spell_caster := last_spell_caster s;
     last_etendard_cast := last_etendard_cast s;
     timeline_entries := timeline_entries s; ougi_spells := ougi_spells s;
     spell_cost_map := spell_cost_map s;
     current_turn_spells := current_turn_spells s |}.
Definition set_current_prey (v : bool) (s : State) : State :=
  {| rage := rage s; tracker := tracker s; prey := prey s;
     current_rage := current_rage s; current_tracker := current_tracker s;
     current_prey := v; pending_rage_loss := pending_rage_loss s;
     rage_loss_caster := rage_loss_caster s;
     rage_loss_spell := rage_loss_spell s; in_combat := in_combat s;
     tracked_player_name := tracked_player_name s;
     is_sac_patate_combat := is_sac_patate_combat s;
     is_ougi_turn := is_ougi_turn s; overlay_visible := overlay_visible s;
     processed_lines := processed_lines s;
     last_spell_caster := last_spell_caster s;
     last_etendard_cast := last_etendard_cast s;
     timeline_entries := timeline_entries s; ougi_spells := ougi_spells s;
     spell_cost_map := spell_cost_map s;
     current_turn_spells := current_turn_spells s |}.
Definition set_pending_rage_loss (v : bool) (s : State) : State :=
  {| rage := rage s; tracker := tracker s; prey := prey s;
     current_rage := current_rage s; current_tracker := current_tracker s;
     current_prey := current_prey s; pending_rage_loss := v;
     rage_loss_caster := rage_loss_caster s;
     rage_loss_spell := rage_loss_spell s; in_combat := in_combat s;
     tracked_player_name := tracked_player_name s;
     is_sac_patate_combat := is_sac_patate_combat s;
     is_ougi_turn := is_ougi_turn s; overlay_visible := overlay_visible s;
     processed_lines := processed_lines s;
     last_spell_caster := last_spell_caster s;
     last_etendard_cast := last_etendard_cast s;
     timeline_entries := timeline_entries s; ougi_spells := ougi_spells s;
     spell_cost_map := spell_cost_map s;
     current_turn_spells := current_turn_spells s |}.
Definition set_rage_loss_caster (v : option str) (s : State) : State :=
  {| rage := rage s; tracker := tracker s; prey := prey s;
     current_rage := current_rage s; current_tracker := current_tracker s;
     current_prey := current_prey s;
     pending_rage_loss := pending_rage_loss s; rage_loss_caster := v;
     rage_loss_spell := rage_loss_spell s; in_combat := in_combat s;
     tracked_player_name := tracked_player_name s;
     is_sac_patate_combat := is_sac_patate_combat s;
     is_ougi_turn := is_ougi_turn s; overlay_visible := overlay_visible s;
     processed_lines := processed_lines s;
     last_spell_caster := last_spell_caster s;
     last_etendard_cast := last_etendard_cast s;
     timeline_entries := timeline_entries s; ougi_spells := ougi_spells s;
     spell_cost_map := spell_cost_map s;
     current_turn_spells := current_turn_spells s |}.
Definition set_rage_loss_spell (v : option str) (s : State) : State :=
  {| rage := rage s; tracker := tracker s; prey := prey s;
     current_rage := current_rage s; current_tracker := current_tracker s;
     current_prey := current_prey s;
     pending_rage_loss := pending_rage_loss s;
     rage_loss_caster := rage_loss_caster s; rage_loss_spell := v;
     in_combat := in_combat s; tracked_player_name := tracked_player_name s;
     is_sac_patate_combat := is_sac_patate_combat s;
     is_ougi_turn := is_ougi_turn s; overlay_visible := overlay_visible s;
     processed_lines := processed_lines s;
     last_spell_caster := last_spell_caster s;
     last_etendard_cast := last_etendard_cast s;
     timeline_entries := timeline_entries s; ougi_spells := ougi_spells s;
     spell_cost_map := spell_cost_map s;
     current_turn_spells := current_turn_spells s |}.
Definition set_in_combat (v : bool) (s : State) : State :=
  {| rage := rage s; tracker := tracker s; prey := prey s;
     current_rage := current_rage s; current_tracker := current_tracker s;
     current_prey := current_prey s;
     pending_rage_loss := pending_rage_loss s;
     rage_loss_caster := rage_loss_caster s;
     rage_loss_spell := rage_loss_spell s; in_combat := v;
     tracked_player_name := tracked_player_name s;
     is_sac_patate_combat := is_sac_patate_combat s;
     is_ougi_turn := is_ougi_turn s; overlay_visible := overlay_visible s;
     processed_lines := processed_lines s;
     last_spell_caster := last_spell_caster s;
     last_etendard_cast := last_etendard_cast s;
     timeline_entries := timeline_entries s; ougi_spells := ougi_spells s;
     spell_cost_map := spell_cost_map s;
     current_turn_spells := current_turn_spells s |}.
Definition set_tracked_player_name (v : option str) (s : State) : State :=
  {| rage := rage s; tracker := tracker s; prey := prey s;
     current_rage := current_rage s; current_tracker := current_tracker s;
     current_prey := current_prey s;
     pending_rage_loss := pending_rage_loss s;
     rage_loss_caster := rage_loss_caster s;
     rage_loss_spell := rage_loss_spell s; in_combat := in_combat s;
     tracked_player_name := v;
     is_sac_patate_combat := is_sac_patate_combat s;
     is_ougi_turn := is_ougi_turn s; overlay_visible := overlay_visible s;
     processed_lines := processed_lines s;
     last_spell_caster := last_spell_caster s;
     last_etendard_cast := last_etendard_cast s;
     timeline_entries := timeline_entries s; ougi_spells := ougi_spells s;
     spell_cost_map := spell_cost_map s;
     current_turn_spells := current_turn_spells s |}.
Definition set_is_sac_patate_combat (v : bool) (s : State) : State :=
  {| rage := rage s; tracker := tracker s; prey := prey s;
     current_rage := current_rage s; current_tracker := current_tracker s;
     current_prey := current_prey s;
     pending_rage_loss := pending_rage_loss s;
     rage_loss_caster := rage_loss_caster s;
     rage_loss_spell := rage_loss_spell s; in_combat := in_combat s;
     tracked_player_name := tracked_player_name s; is_sac_patate_combat := v;
     is_ougi_turn := is_ougi_turn s; overlay_visible := overlay_visible s;
     processed_lines := processed_lines s;
     last_spell_caster := last_spell_caster s;
     last_etendard_cast := last_etendard_cast s;
     timeline_entries := timeline_entries s; ougi_spells := ougi_spells s;
     spell_cost_map := spell_cost_map s;
     current_turn_spells := current_turn_spells s |}.
Definition set_is_ougi_turn (v : bool) (s : State) : State :=
  {| rage := rage s; tracker := tracker s; prey := prey s;
     current_rage := current_rage s; current_tracker := current_tracker s;
     current_prey := current_prey s;
     pending_rage_loss := pending_rage_loss s;
     rage_loss_caster := rage_loss_caster s;
     rage_loss_spell := rage_loss_spell s; in_combat := in_combat s;
     tracked_player_name := tracked_player_name s;
     is_sac_patate_combat := is_sac_patate_combat s; is_ougi_turn := v;
     overlay_visible := overlay_visible s;
     processed_lines := processed_lines s;
     last_spell_caster := last_spell_caster s;
     last_etendard_cast := last_etendard_cast s;
     timeline_entries := timeline_entries s; ougi_spells := ougi_spells s;
     spell_cost_map := spell_cost_map s;
     current_turn_spells := current_turn_spells s |}.
Definition set_overlay_visible (v : bool) (s : State) : State :=
  {| rage := rage s; tracker := tracker s; prey := prey s;
     current_rage := current_rage s; current_tracker := current_tracker s;
     current_prey := current_prey s;
     pending_rage_loss := pending_rage_loss s;
     rage_loss_caster := rage_loss_caster s;
     rage_loss_spell := rage_loss_spell s; in_combat := in_combat s;
     tracked_player_name := tracked_player_name s;
     is_sac_patate_combat := is_sac_patate_combat s;
     is_ougi_turn := is_ougi_turn s; overlay_visible := v;
     processed_lines := processed_lines s;
     last_spell_caster := last_spell_caster s;
     last_etendard_cast := last_etendard_cast s;
     timeline_entries := timeline_entries s; ougi_spells := ougi_spells s;
     spell_cost_map := spell_cost_map s;
     current_turn_spells := current_turn_spells s |}.
Definition set_processed_lines (v : list Z) (s : State) : State :=
  {| rage := rage s; tracker := tracker s; prey := prey s;
     current_rage := current_rage s; current_tracker := current_tracker s;
     current_prey := current_prey s;
     pending_rage_loss := pending_rage_loss s;
     rage_loss_caster := rage_loss_caster s;
     rage_loss_spell := rage_loss_spell s; in_combat := in_combat s;
     tracked_player_name := tracked_player_name s;
     is_sac_patate_combat := is_sac_patate_combat s;
     is_ougi_turn := is_ougi_turn s; overlay_visible := overlay_visible s;
     processed_lines := v; last_spell_caster := last_spell_caster s;
     last_etendard_cast := last_etendard_cast s;
     timeline_entries := timeline_entries s; ougi_spells := ougi_spells s;
     spell_cost_map := spell_cost_map s;
     current_turn_spells := current_turn_spells s |}.
Definition set_last_spell_caster (v : option str) (s : State) : State :=
  {| rage := rage s; tracker := tracker s; prey := prey s;
     current_rage := current_rage s; current_tracker := current_tracker s;
     current_prey := current_prey s;
     pending_rage_loss := pending_rage_loss s;
     rage_loss_caster := rage_loss_caster s;
     rage_loss_spell := rage_loss_spell s; in_combat := in_combat s;
     tracked_player_name := tracked_player_name s;
     is_sac_patate_combat := is_sac_patate_combat s;
     is_ougi_turn := is_ougi_turn s; overlay_visible := overlay_visible s;
     processed_lines := processed_lines s; last_spell_caster := v;
     last_etendard_cast := last_etendard_cast s;
     timeline_entries := timeline_entries s; ougi_spells := ougi_spells s;
     spell_cost_map := spell_cost_map s;
     current_turn_spells := current_turn_spells s |}.
Definition set_last_etendard_cast (v : bool) (s : State) : State :=
  {| rage := rage s; tracker := tracker s; prey := prey s;
     current_rage := current_rage s; current_tracker := current_tracker s;
     current_prey := current_prey s;
     pending_rage_loss := pending_rage_loss s;
     rage_loss_caster := rage_loss_caster s;
     rage_loss_spell := rage_loss_spell s; in_combat := in_combat s;
     tracked_player_name := tracked_player_name s;
     is_sac_patate_combat := is_sac_patate_combat s;
     is_ougi_turn := is_ougi_turn s; overlay_visible := overlay_visible s;
     processed_lines := processed_lines s;
     last_spell_caster := last_spell_caster s; last_etendard_cast := v;
     timeline_entries := timeline_entries s; ougi_spells := ougi_spells s;
     spell_cost_map := spell_cost_map s;
     current_turn_spells := current_turn_spells s |}.
Definition set_timeline_entries (v : list TimelineEntry) (s : State) : State :=
  {| rage := rage s; tracker := tracker s; prey := prey s;
     current_rage := current_rage s; current_tracker := current_tracker s;
     current_prey := current_prey s;
     pending_rage_loss := pending_rage_loss s;
     rage_loss_caster := rage_loss_caster s;
     rage_loss_spell := rage_loss_spell s; in_combat := in_combat s;
     tracked_player_name := tracked_player_name s;
     is_sac_patate_combat := is_sac_patate_combat s;
     is_ougi_turn := is_ougi_turn s; overlay_visible := overlay_visible s;
     processed_lines := processed_lines s;
     last_spell_caster := last_spell_caster s;
     last_etendard_cast := last_etendard_cast s; timeline_entries := v;
     ougi_spells := ougi_spells s; spell_cost_map := spell_cost_map s;
     current_turn_spells := current_turn_spells s |}.
Definition set_current_turn_spells (v : option (list str)) (s : State) : State :=
  {| rage := rage s; tracker := tracker s; prey := prey s;
     current_rage := current_rage s; current_tracker := current_tracker s;
     current_prey := current_prey s;
     pending_rage_loss := pending_rage_loss s;
     rage_loss_caster := rage_loss_caster s;
     rage_loss_spell := rage_loss_spell s; in_combat := in_combat s;
     tracked_player_name := tracked_player_name s;
     is_sac_patate_combat := is_sac_patate_combat s;
     is_ougi_turn := is_ougi_turn s; overlay_visible := overlay_visible s;
     processed_lines := processed_lines s;
     last_spell_caster := last_spell_caster s;
     last_etendard_cast := last_etendard_cast s;
     timeline_entries := timeline_entries s; ougi_spells := ougi_spells s;
     spell_cost_map := spell_cost_map s; current_turn_spells := v |}.

(** [WakfuOugiResourceTracker.__init__] *)
Definition init : State :=
  {| rage := 0; tracker := 0; prey := false;
     current_rage := 0; current_tracker := 0; current_prey := false;
     pending_rage_loss := false; rage_loss_caster := None;
     rage_loss_spell := None; in_combat := false;
     tracked_player_name := None; is_sac_patate_combat := false;
     is_ougi_turn := false; overlay_visible := false;
     processed_lines := []; last_spell_caster := None;
     last_etendard_cast := false; timeline_entries := [];
     ougi_spells := None; spell_cost_map := None;
     current_turn_spells := None |}.

Definition timeline_max_slots : nat := 5.

Definition spell_icon_stem_map : gmap str str :=
  list_to_map
    [ (u "√âp√©e c√©leste", u "epeeceleste");
      (u "Fulgur", u "fulgur");
      (u "Super Iop Punch", u "superioppunch");
      (u "Jugement", u "jugement");
      (u "Col√®re de Iop", u "colere");
      (u "√âbranler", u "ebranler");
      (u "Roknocerok", u "roknocerok");
      (u "Fendoir", u "fendoir");
      (u "Ravage", u "ravage");
      (u "Jabs", u "jabs");
      (u "Rafale", u "rafale");
      (u "Torgnole", u "torgnole");
      (u "Tann√©e", u "tannee");
      (u "√âp√©e de Iop", u "epeeduiop");
      (u "Bond", u "bond");
      (u "Focus", u "Focus");
      (u "√âventrail", u "eventrail");
      (u "Uppercut", u "uppercut");
      (u "Amplification", u "Amplification");
      (u "Duel", u "Duel");
      (u "√âtendard de bravoure", u "Etandard");
      (u "Vertu", u "Vertu");
      (u "Charge", u "charge") ].

Definition assign {A} (set : A -> State -> State) (v : A) : M State unit :=
  modify (set v).

(** [l[-n:]] *)
Definition last_n {A} (n : nat) (l : list A) : list A :=
  drop (length l - n)%nat l.
(** *** The patterns of [parse_log_line], in source order *)

Definition digits : regex := Many1 is_digit.
Definition not_colon : char -> bool := none_of (u ":").

(** [\[Information \(combat\)\] ([^:]+)[:\s]+lance le sort ([^(]+)] *)
Definition re_spell : regex :=
  seq [lit "[Information (combat)] "; Grp 1 (Many1 not_colon);
       Many1 colon_or_space; lit "lance le sort ";
       Grp 2 (Many1 (none_of (u "(")))].

(** [\[Information \(combat\)\]\s+([^:]+):\s+lance le sort] *)
Definition re_player_spell_colon : regex :=
  seq [lit "[Information (combat)]"; Many1 is_space; Grp 1 (Many1 not_colon);
       lit ":"; Many1 is_space; lit "lance le sort"].

(** [\[Information \(combat\)\]\s+([^:]+)\s+lance le sort] *)
Definition re_player_spell_space : regex :=
  seq [lit "[Information (combat)]"; Many1 is_space; Grp 1 (Many1 not_colon);
       Many1 is_space; lit "lance le sort"].

(** [lance le sort ([^\(\n]+)] *)
Definition re_spell_name : regex :=
  seq [lit "lance le sort "; Grp 1 (Many1 (none_of (u "(" ++ [10%N])))].

(** [est hors-combat] and [est KO !] *)
Definition re_hors_combat : regex := lit "est hors-combat".
Definition re_ko : regex := lit "est KO !".

(** [rage \(\+(\d+) Niv\.\)] *)
Definition re_rage : regex :=
  seq [lit "rage (+"; Grp 1 digits; lit " Niv.)"].

(** [\[Information \(combat\)\] ([^:]+): rage] *)
Definition re_player_rage : regex :=
  seq [lit "[Information (combat)] "; Grp 1 (Many1 not_colon); lit ": rage"].

(** [tracker \(\+(\d+) Niv\.\)] *)
Definition re_tracker : regex :=
  seq [lit "tracker (+"; Grp 1 digits; lit " Niv.)"].

(** [\[Information \(combat\)\] ([^:]+): n\'est plus sous l\'emprise de \'tracker\'] *)
Definition re_player_tracker_loss : regex :=
  seq [lit "[Information (combat)] "; Grp 1 (Many1 not_colon);
       lit ": n'est plus sous l'emprise de 'tracker'"].

(** [tracker \(\+(\d+) Niv\.\) \((Compulsion|rage)\)] *)
Definition re_tracker_gain : regex :=
  seq [lit "tracker (+"; Grp 1 digits; lit " Niv.) (";
       Grp 2 (Alt (lit "Compulsion") (lit "rage")); lit ")"].

(** [\[Information \(combat\)\] .*: -(\d+) PV \([^)]+\) \(tracker\)] *)
Definition re_tracker_damage : regex :=
  seq [lit "[Information (combat)] "; Many0 any_but_newline; lit ": -";
       Grp 1 digits; lit " PV ("; Many1 (none_of (u ")")); lit ") (tracker)"].

(** [Pr√©paration \(\+(\d+) Niv\.\)] *)
Definition re_preparation : regex :=
  seq [lit "Pr√©paration (+"; Grp 1 digits; lit " Niv.)"].

(** [\[Information \(combat\)\] ([^:]+):\s*-(\d+)\s*PV] *)
Definition re_damage : regex :=
  seq [lit "[Information (combat)] "; Grp 1 (Many1 not_colon); lit ":";
       Many0 is_space; lit "-"; Grp 2 digits; Many0 is_space; lit "PV"].

(** The phrases tested with [in]. *)
Definition LANCE_LE_SORT : str := u "lance le sort".
Definition SAC_A_PATATE : str := u "Sac √† patate".
Definition COMBAT_TERMINE : str := u "Combat termin√©".
Definition COMBAT_TERMINE_LONG : str :=
  u "Combat termin√©, cliquez ici pour rouvrir l'√©cran de fin de combat.".
Definition INFORMATION_COMBAT : str := u "[Information (combat)]".
Definition REPORTEE : str := u "report√©e pour le tour suivant".
Definition REPORTEES : str := u "report√©es pour le tour suivant".
Definition TRACKER_LOSS_ISOLE : str :=
  u "n'est plus sous l'emprise de 'tracker' (Iop isol√©)".
Definition TRACKER_LOSS_COMPULSION : str :=
  u "n'est plus sous l'emprise de 'tracker' (Compulsion)".
Definition ETENDARD : str := u "√âtendard de bravoure".

(** *** [add_spell_to_timeline]

    [update_timeline_display], called last, only moves and shows the
    label widgets. *)
Definition add_spell_to_timeline (spell_name : str) : M State unit :=
  let spell_key := strip spell_name in
  let* cost_map := get_attr "spell_cost_map" spell_cost_map in
  let cost := cost_map !! spell_key in
  let icon_stem := spell_icon_stem_map !! spell_key in
  if negb (truthy cost) || negb (truthy icon_stem) then return_
  else
    let compact_cost := remove_spaces (default [] cost) in
    let entry := {| spell := spell_key; cost := compact_cost |} in
    modify (fun s => set_timeline_entries (timeline_entries s ++ [entry]) s) >>
    let* n := gets (fun s => length (timeline_entries s)) in
    when (timeline_max_slots <? n)%nat
      (modify (fun s =>
         set_timeline_entries
           (last_n (timeline_max_slots + 1) (timeline_entries s)) s)).

Section ParseLogLine.
Context {RT : Runtime}.

(** Lines 893-899, 903-907 and 910-914: the three branches of the
    duplicate check run the same statements. *)
Definition skip_or_record (line : str) : M State unit :=
  let line_hash := hash (strip line) in
  let* seen := gets processed_lines in
  if bool_decide (line_hash ∈ seen) then return_
  else modify (fun s => set_processed_lines (set_add line_hash (processed_lines s)) s).

Definition duplicate_check (line : str) : M State unit :=
  if contains LANCE_LE_SORT line then
    if matched (search re_spell line) then skip_or_record line
    else skip_or_record line
  else skip_or_record line.

(** Lines 917-919 *)
Definition trim_processed_lines : M State unit :=
  let* n := gets (fun s => length (processed_lines s)) in
  when (1000 <? n)%nat
    (modify (fun s =>
       set_processed_lines (set_of_list (last_n 500 (processed_lines s))) s)).

(** Lines 921-922 *)
Definition sac_patate_check (line : str) : M State unit :=
  when (contains SAC_A_PATATE line
        && (contains (u "Quand tu auras fini de me frapper") line
            || contains (u "abandonner") line
            || contains (u "Abandonne le combat") line))
    (assign set_is_sac_patate_combat true).

(** Lines 925-990, entered when ["lance le sort" in line] *)
Definition spell_cast_block (line : str) : M State unit :=
  let player_spell_match :=
    match search re_player_spell_colon line with
    | Some m => Some m
    | None => search re_player_spell_space line
    end in
  let spell_name :=
    match search re_spell_name line with
    | Some m => strip (group 1 m)
    | None => u "?"
    end in
  let caster_name : option str :=
    match player_spell_match with
    | Some m => Some (strip (group 1 m))
    | None => None
    end in
  when (matched player_spell_match) (assign set_last_spell_caster caster_name) >>
  let* spells := get_attr "ougi_spells" ougi_spells in
  let is_ougi_spell := bool_decide (spell_name ∈ spells) in
  when is_ougi_spell
    (let* tracked := gets tracked_player_name in
     when (negb (truthy tracked)) (assign set_tracked_player_name caster_name)) >>
  let* tracked := gets tracked_player_name in
  let is_tracked_caster :=
    if truthy caster_name && truthy tracked
    then str_eqb (strip (default [] caster_name)) (strip (default [] tracked))
    else false in
  let* fighting := gets in_combat in
  (if negb fighting && is_tracked_caster then
     assign set_in_combat true >>
     assign set_tracker 0 >>
     assign set_current_tracker 0
   else assign set_in_combat true) >>
  when (is_ougi_spell && is_tracked_caster)
    (assign set_is_ougi_turn true >>
     assign set_overlay_visible true) >>
  when (is_tracked_caster && truthy (Some spell_name))
    ((if str_eqb spell_name ETENDARD
      then assign set_last_etendard_cast true
      else assign set_last_etendard_cast false) >>
     call (add_spell_to_timeline spell_name)) >>
  return_.

(** Lines 993-998: the only assignments to the local [combat_ended]. *)
Definition combat_ended_local (line : str) : M State (option bool) :=
  if contains COMBAT_TERMINE line || contains COMBAT_TERMINE_LONG line
  then ret (Some true)
  else
    let* sac := gets is_sac_patate_combat in
    if (matched (search re_hors_combat line) || matched (search re_ko line)) && sac
    then ret (Some true)
    else ret None.

(** Lines 1001-1029. The loop after [current_turn_spells.clear()] hides
    label widgets. *)
Definition combat_end_block : M State unit :=
  assign set_in_combat false >>
  assign set_is_sac_patate_combat false >>
  assign set_is_ougi_turn false >>
  assign set_overlay_visible false >>
  assign set_rage 0 >>
  assign set_tracker 0 >>
  assign set_prey false >>
  assign set_current_rage 0 >>
  assign set_current_tracker 0 >>
  assign set_current_prey false >>
  assign set_current_rage 0 >>
  assign set_pending_rage_loss false >>
  assign set_rage_loss_caster None >>
  assign set_rage_loss_spell None >>
  assign set_timeline_entries [] >>
  let* _ := get_attr "current_turn_spells" current_turn_spells in
  assign set_current_turn_spells (Some []) >>
  return_.

(** Lines 1050-1052 and 1107-1109 *)
Definition lose_prey : M State unit :=
  let* p := gets prey in
  when p
    (assign set_prey false >>
     let* p' := gets prey in
     assign set_current_prey p').

(** Lines 1036-1061 *)
Definition rage_block (line : str) : M State unit :=
  match search re_rage line with
  | Some rage_match =>
    match search re_player_rage line with
    | Some player_rage_match =>
      assign set_tracked_player_name (Some (group 1 player_rage_match))
    | None => ret tt
    end >>
    let* rage_value := to_int (group 1 rage_match) in
    (if 100 <=? rage_value then
       assign set_rage (rage_value mod 100) >>
       lose_prey
     else assign set_rage rage_value) >>
    return_
  | None => ret tt
  end.

(** Lines 1079-1082 and 1097-1100 *)
Definition cancel_pending : M State unit :=
  let* pending := gets pending_rage_loss in
  when pending
    (assign set_pending_rage_loss false >>
     assign set_rage_loss_caster None >>
     assign set_rage_loss_spell None).

(** Lines 1065-1128 *)
Definition turn_pass_block (line : str) : M State unit :=
  when (contains REPORTEE line || contains REPORTEES line)
    (let* turn_owner := gets last_spell_caster in
     let* tracked := gets tracked_player_name in
     (if truthy turn_owner && truthy tracked && bool_decide (turn_owner = tracked) then
        assign set_is_ougi_turn false >>
        assign set_overlay_visible false >>
        cancel_pending
      else if truthy turn_owner then ret tt
      else
        when (truthy tracked)
          (assign set_is_ougi_turn false >>
           assign set_overlay_visible false >>
           cancel_pending)) >>
     lose_prey >>
     let* timeline_count := gets (fun s => length (timeline_entries s)) in
     when (0 <? timeline_count)%nat (assign set_timeline_entries []) >>
     return_).

(** Lines 1131-1137 *)
Definition tracker_block (line : str) : M State unit :=
  match search re_tracker line with
  | Some tracker_match =>
    let* tracker_value := to_int (group 1 tracker_match) in
    assign set_tracker (Z.min tracker_value 50) >>
    let* t := gets tracker in
    assign set_current_tracker t >>
    return_
  | None => ret tt
  end.

(** Lines 1142-1148 and 1168-1174, with the new value as a function of the
    old one. *)
Definition tracker_loss (line : str) (f : Z -> Z) : M State unit :=
  let* tracked := gets tracked_player_name in
  match search re_player_tracker_loss line with
  | Some player_tracker_loss_match =>
    when (truthy tracked)
      (let player_name := group 1 player_tracker_loss_match in
       when (bool_decide (Some player_name = tracked))
         (let* t := gets tracker in
          assign set_tracker (f t) >>
          let* t' := gets tracker in
          assign set_current_tracker t'))
  | None => ret tt
  end.

(** Lines 1140-1149 *)
Definition tracker_loss_isole_block (line : str) : M State unit :=
  when (contains TRACKER_LOSS_ISOLE line)
    (tracker_loss line (fun t => Z.max 0 (t - 10)) >>
     return_).

(** Lines 1153-1163; [trigger_tracker_bounce] sets animation variables. *)
Definition tracker_gain_block (line : str) : M State unit :=
  match search re_tracker_gain line with
  | Some tracker_gain_match =>
    let* tracker_total := to_int (group 1 tracker_gain_match) in
    assign set_tracker (Z.min tracker_total 4) >>
    let* t := gets tracker in
    assign set_current_tracker t >>
    return_
  | None => ret tt
  end.

(** Lines 1166-1175 *)
Definition tracker_loss_compulsion_block (line : str) : M State unit :=
  when (contains TRACKER_LOSS_COMPULSION line)
    (tracker_loss line (fun _ => 0) >>
     return_).

(** Lines 1181-1187 *)
Definition tracker_damage_block (line : str) : M State unit :=
  when (contains (u "(tracker)") line && contains (u "PV") line)
    (when (matched (search re_tracker_damage line))
       (assign set_tracker 0 >>
        let* t := gets tracker in
        assign set_current_tracker t >>
        return_)).

(** Lines 1190-1201; [trigger_rage_slide] sets animation variables. *)
Definition preparation_block (line : str) : M State unit :=
  match search re_preparation line with
  | Some rage_gain_match =>
    let* rage_total := to_int (group 1 rage_gain_match) in
    assign set_rage rage_total >>
    let* r := gets rage in
    assign set_current_rage r >>
    return_
  | None => ret tt
  end.

(** Lines 1204-1227 *)
Definition damage_block (line : str) : M State unit :=
  let* pending := gets pending_rage_loss in
  match search re_damage line with
  | Some damage_match =>
    when pending
      (let* damage_amount := to_int (group 2 damage_match) in
       let* caster := gets rage_loss_caster in
       let* tracked := gets tracked_player_name in
       when (bool_decide (caster = tracked))
         (assign set_rage 0 >>
          let* r := gets rage in
          assign set_current_rage r >>
          assign set_pending_rage_loss false >>
          assign set_rage_loss_caster None >>
          assign set_rage_loss_spell None >>
          return_))
  | None => ret tt
  end.

(** Lines 1032-1227: what follows the combat-end test. *)
Definition resource_handlers (line : str) : M State unit :=
  when (negb (contains INFORMATION_COMBAT line)) return_ >>
  rage_block line >>
  turn_pass_block line >>
  tracker_block line >>
  tracker_loss_isole_block line >>
  tracker_gain_block line >>
  tracker_loss_compulsion_block line >>
  tracker_damage_block line >>
  preparation_block line >>
  damage_block line.

(** Lines 883-1029: duplicate check, special-encounter marker, spell cast
    and combat end. *)
Definition lifecycle_part (line : str) : M State unit :=
  duplicate_check line >>
  trim_processed_lines >>
  sac_patate_check line >>
  when (contains LANCE_LE_SORT line) (spell_cast_block line) >>
  let* combat_ended := combat_ended_local line in
  let* ended := read_local "combat_ended" combat_ended in
  when ended combat_end_block.

(** The body of the [try] statement, lines 883-1227. *)
Definition parse_log_line_body (line : str) : M State unit :=
  lifecycle_part line >>
  resource_handlers line.

(** [parse_log_line]: the body under [except Exception: pass]. *)
Definition parse_log_line (line : str) : M State unit :=
  try_except_pass (parse_log_line_body line).

End ParseLogLine.

(** *** A runtime to run the model on concrete lines

    [hash] is a polynomial in the code points, and a set is iterated in
    increasing order of its elements. *)
Fixpoint insert_ordered (x : Z) (l : list Z) : list Z :=
  match l with
  | [] => [x]
  | y :: l' =>
    if x <? y then x :: l
    else if x =? y then l
    else y :: insert_ordered x l'
  end.

Definition hash_poly (s : str) : Z :=
  fold_left (fun h c => (31 * h + Z.of_N c) mod 2 ^ 61) s 7.

#[export] Instance ordered_runtime : Runtime := {|
  hash := hash_poly;
  set_add := insert_ordered;
  set_of_list := foldr insert_ordered []
|}.

(** *** Vocabulary of the statements *)

Section Vocabulary.
Context {RT : Runtime}.

(** The line's fingerprint is in the window: line 894, 904 or 911 returns. *)
Definition is_duplicate (st : State) (line : str) : bool :=
  bool_decide (hash (strip line) ∈ processed_lines st).

(** The state once a line has passed lines 883-922: its fingerprint
    recorded, the window trimmed, the special-encounter flag raised. *)
Definition recorded (line : str) (st : State) : State :=
  set_processed_lines (set_add (hash (strip line)) (processed_lines st)) st.

Definition trimmed (st : State) : State :=
  if (1000 <? length (processed_lines st))%nat
  then set_processed_lines (set_of_list (last_n 500 (processed_lines st))) st
  else st.

Definition sac_marker (line : str) : bool :=
  contains SAC_A_PATATE line
  && (contains (u "Quand tu auras fini de me frapper") line
      || contains (u "abandonner") line
      || contains (u "Abandonne le combat") line).

Definition flagged (line : str) (st : State) : State :=
  if sac_marker line then set_is_sac_patate_combat true st else st.

Definition accepted (line : str) (st : State) : State :=
  flagged line (trimmed (recorded line st)).

(** Classification of a line, by the tests of lines 925 and 993-997. The
    special-encounter flag is the one in force when line 997 reads it,
    that is, after line 922 may have set it. *)
Definition is_cast_line (line : str) : bool := contains LANCE_LE_SORT line.

Definition ko_marker (line : str) : bool :=
  matched (search re_hors_combat line) || matched (search re_ko line).

Definition has_end_marker (st : State) (line : str) : bool :=
  contains COMBAT_TERMINE line || contains COMBAT_TERMINE_LONG line
  || ko_marker line && (is_sac_patate_combat st || sac_marker line).

Definition is_combat_end_line (st : State) (line : str) : bool :=
  negb (is_cast_line line) && has_end_marker st line.

(** A line that is neither a cast nor a combat end. *)
Definition is_plain_line (st : State) (line : str) : bool :=
  negb (is_cast_line line) && negb (has_end_marker st line).

(** The counter events of the specification, by the pattern or phrase that
    selects their handler. *)
Definition is_rage_gain (line : str) : bool := matched (search re_rage line).
Definition is_stack_gain (line : str) : bool := matched (search re_tracker line).
Definition is_tagged_stack_gain (line : str) : bool :=
  matched (search re_tracker_gain line).
Definition is_stack_loss (line : str) : bool :=
  contains TRACKER_LOSS_ISOLE line || contains TRACKER_LOSS_COMPULSION line.
Definition is_tagged_damage (line : str) : bool :=
  contains (u "(tracker)") line && contains (u "PV") line
  && matched (search re_tracker_damage line).
Definition is_preparation_gain (line : str) : bool :=
  matched (search re_preparation line).
Definition is_damage (line : str) : bool := matched (search re_damage line).
Definition is_turn_pass (line : str) : bool :=
  contains REPORTEE line || contains REPORTEES line.

Definition is_counter_event (line : str) : bool :=
  is_rage_gain line || is_stack_gain line || is_tagged_stack_gain line
  || is_stack_loss line || is_tagged_damage line || is_preparation_gain line
  || is_damage line.

(** The actor a combat line starts with: the group [([^:]+)] that the
    patterns of lines 1039, 1142, 1168 and 1204 all open with. *)
Definition re_actor : regex :=
  seq [lit "[Information (combat)] "; Grp 1 (Many1 not_colon); lit ":"].

Definition event_actor (line : str) : option str :=
  match search re_actor line with
  | Some m => Some (group 1 m)
  | None => None
  end.

(** The states the object goes through: [__init__], then any lines. No
    other method of the class writes an attribute of [State], except the
    animation timer, which drops the oldest timeline entry once there are
    more than [timeline_max_slots]. *)
Inductive reachable : State -> Prop :=
| reachable_init : reachable init
| reachable_line st line :
    reachable st -> reachable (exec (parse_log_line line) st)
| reachable_drop st :
    reachable st ->
    (timeline_max_slots < length (timeline_entries st))%nat ->
    reachable (set_timeline_entries (drop 1 (timeline_entries st)) st).

(** No confirmation is pending. *)
Definition not_pending (s : State) : Prop := pending_rage_loss s = false.

(** Two states with the same resources: counters, flag, pending
    confirmation and timeline. *)
Definition same_resources (s s' : State) : Prop :=
  rage s' = rage s /\ tracker s' = tracker s /\ prey s' = prey s /\
  current_rage s' = current_rage s /\
  current_tracker s' = current_tracker s /\
  current_prey s' = current_prey s /\
  pending_rage_loss s' = pending_rage_loss s /\
  rage_loss_caster s' = rage_loss_caster s /\
  rage_loss_spell s' = rage_loss_spell s /\
  timeline_entries s' = timeline_entries s.

(** [s'] is [s] except for the deduplication window and the
    special-encounter flag. *)
Definition same_but_window_and_flag (s s' : State) : Prop :=
  s' = set_is_sac_patate_combat (is_sac_patate_combat s')
         (set_processed_lines (processed_lines s') s).

End Vocabulary.

(** *** Pushes on the timeline *)

(** A spell [add_spell_to_timeline] makes an entry for: it has a cost and
    an icon stem, neither empty. *)
Definition known (cost_map : gmap str str) (spell_name : str) : bool :=
  truthy (cost_map !! strip spell_name)
  && truthy (spell_icon_stem_map !! strip spell_name).

Definition entry_of (cost_map : gmap str str) (spell_name : str) : TimelineEntry :=
  {| spell := strip spell_name;
     cost := remove_spaces (default [] (cost_map !! strip spell_name)) |}.

(** One call of [add_spell_to_timeline] after the other. *)
Fixpoint push_all (spells : list str) (st : State) : State :=
  match spells with
  | [] => st
  | spell_name :: rest => push_all rest (exec (add_spell_to_timeline spell_name) st)
  end.

(** *** Lines and states of the examples *)

Definition BOB : str := u "Bob".
Definition ALICE : str := u "Alice".

Definition line_rage_140 : str :=
  u "[Information (combat)] Bob: rage (+140 Niv.)".
Definition line_tracker_80 : str :=
  u "[Information (combat)] Bob: tracker (+80 Niv.)".
Definition line_tracker_80_tagged : str :=
  u "[Information (combat)] Bob: tracker (+80 Niv.) (Compulsion)".
Definition line_turn_pass : str :=
  u "[Information (combat)] 1 seconde report√©e pour le tour suivant".
Definition line_combat_end : str :=
  u "Combat termin√©, cliquez ici pour rouvrir l'√©cran de fin de combat.".
Definition line_cast_bond : str :=
  u "[Information (combat)] Bob: lance le sort Bond".
Definition line_damage : str :=
  u "[Information (combat)] Sac: -64 PV (Feu)".
Definition line_sac_patate : str :=
  u "[Information (combat)] Sac √† patate: Abandonne le combat".

(** A window of 1000 fingerprints, the line's own not among them. *)
Definition st_full_window {RT : Runtime} (line : str) : State :=
  set_processed_lines (seqZ (hash (strip line) + 1) 1000) init.

(** A cost map for six spells; the class defines none. *)
Definition sample_cost_map : gmap str str :=
  list_to_map
    [ (u "Bond", u "4 PA"); (u "Jabs", u "3 PA"); (u "Fulgur", u "3 PA");
      (u "Rafale", u "1 PA"); (u "Focus", u "2 PA"); (u "Duel", u "1 PA") ].

Definition six_spells : list str :=
  [u "Bond"; u "Jabs"; u "Fulgur"; u "Rafale"; u "Focus"; u "Duel"].

Definition st_with_costs : State :=
  {| rage := 0; tracker := 0; prey := false;
     current_rage := 0; current_tracker := 0; current_prey := false;
     pending_rage_loss := false; rage_loss_caster := None;
     rage_loss_spell := None; in_combat := false;
     tracked_player_name := None; is_sac_patate_combat := false;
     is_ougi_turn := false; overlay_visible := false;
     processed_lines := []; last_spell_caster := None;
     last_etendard_cast := false; timeline_entries := [];
     ougi_spells := None; spell_cost_map := Some sample_cost_map;
     current_turn_spells := None |}.

(** Bob tracked, the flag set, a confirmation pending on Bob's cast. *)
Definition st_bob_armed : State :=
  set_pending_rage_loss true
    (set_rage_loss_caster (Some BOB)
       (set_last_spell_caster (Some BOB)
          (set_tracked_player_name (Some BOB)
             (set_prey true (set_rage 30 (set_tracker 3 init)))))).

(** *** More vocabulary *)

(** [set(l)] has no more elements than [l]. *)
Definition set_of_list_shrinks (RT : Runtime) : Prop :=
  forall l, (length (set_of_list l) <= length l)%nat.

(** The caster a cast line names, by the two patterns of lines 927-929 and
    the [strip] of line 938. *)
Definition player_spell_match (line : str) : option captures :=
  match search re_player_spell_colon line with
  | Some m => Some m
  | None => search re_player_spell_space line
  end.

Definition caster_of (line : str) : option str :=
  match player_spell_match line with
  | Some m => Some (strip (group 1 m))
  | None => None
  end.

(** [st] is the constructed object except for the window, the
    special-encounter flag and the last caster. *)
Definition only_three_written (st : State) : Prop :=
  st = set_last_spell_caster (last_spell_caster st)
         (set_is_sac_patate_combat (is_sac_patate_combat st)
            (set_processed_lines (processed_lines st) init)).

(** A cast line in the colon form: some text, the combat tag, white space,
    the caster's name, and the cast phrase. *)
Definition cast_line (pre ws name rest : str) : str :=
  pre ++ INFORMATION_COMBAT ++ ws ++ name ++ u ": lance le sort" ++ rest.

(** The spell a cast line names, by the pattern of line 932. *)
Definition spell_of (line : str) : str :=
  match search re_spell_name line with
  | Some m => strip (group 1 m)
  | None => u "?"
  end.

(** An object on which the three missing attributes have been set, in the
    middle of Alice's combat. *)
Definition st_configured : State :=
  {| rage := 30; tracker := 20; prey := true;
     current_rage := 30; current_tracker := 20; current_prey := true;
     pending_rage_loss := false; rage_loss_caster := None;
     rage_loss_spell := None; in_combat := true;
     tracked_player_name := Some ALICE; is_sac_patate_combat := true;
     is_ougi_turn := false; overlay_visible := false;
     processed_lines := []; last_spell_caster := Some ALICE;
     last_etendard_cast := false; timeline_entries := [];
     ougi_spells := Some [u "Bond"; u "Jabs"]; spell_cost_map := Some sample_cost_map;
     current_turn_spells := Some [] |}.

(** The stack counter is within the bounds of the generic path. *)
Definition tracker_in_range (s : State) : Prop := 0 <= tracker s <= 50.

End Tracker.

(* ===================================================================== *)
(** ** The log monitor *)
(* ===================================================================== *)

Module Monitor.
Import PyStr.

(** [LogMonitorThread.run] polls the log file in a loop. What the file
    system answers at one turn of the loop: the file is not there; it is
    read, giving [readlines()] and [f.tell()]; or the [try] block fails
    before it has written anything. *)
Inductive poll : Type :=
| FileMissing
| FileRead (new_lines : list str) (position : Z)
| Failure.

(** Arguments of [time.sleep]: [0.1], or a whole number of seconds. *)
Inductive duration : Type :=
| TenthOfSecond
| Seconds (n : Z).

(** What one turn of the loop does to the outside. *)
Inductive effect : Type :=
| Emitted (line : str)
| Slept (d : duration).

Record Thread : Type := mkThread {
  monitoring : bool;
  last_position : Z
}.

Definition set_last_position (v : Z) (t : Thread) : Thread :=
  {| monitoring := monitoring t; last_position := v |}.

(** [stop_monitoring] *)
Definition stop_monitoring (t : Thread) : Thread :=
  {| monitoring := false; last_position := last_position t |}.

Definition max_errors : Z := 5.

(** Lines 61-68: every line stripped, and emitted unless empty. *)
Fixpoint emit_lines (new_lines : list str) : list effect :=
  match new_lines with
  | [] => []
  | line :: rest =>
    let line := strip line in
    if truthy (Some line) then Emitted line :: emit_lines rest
    else emit_lines rest
  end.

(** One turn of the loop, lines 54-87, on the local [consecutive_errors]:
    the thread, the counter, the effects, and whether [break] was hit. *)
Definition turn (p : poll) (t : Thread) (consecutive_errors : Z)
    : Thread * Z * list effect * bool :=
  match p with
  | FileRead new_lines position =>
    let t := set_last_position position t in
    match new_lines with
    | _ :: _ => (t, 0, emit_lines new_lines, false)
    | [] => (t, consecutive_errors, [Slept TenthOfSecond], false)
    end
  | FileMissing => (t, 0, [Slept (Seconds 1)], false)
  | Failure =>
    let consecutive_errors := consecutive_errors + 1 in
    if max_errors <=? consecutive_errors then (t, consecutive_errors, [], true)
    else
      let sleep_time := Z.min (1 * 2 ^ consecutive_errors) 10 in
      (t, consecutive_errors, [Slept (Seconds sleep_time)], false)
  end.

(** The loop on the answers of the file system, as far as they go. The
    last component tells whether the loop has ended, by [break] or because
    [monitoring] is off. *)
Fixpoint loop (polls : list poll) (t : Thread) (consecutive_errors : Z)
    : Thread * Z * list effect * bool :=
  if monitoring t then
    match polls with
    | [] => (t, consecutive_errors, [], false)
    | p :: rest =>
      match turn p t consecutive_errors with
      | (t', errors', effects, true) => (t', errors', effects, true)
      | (t', errors', effects, false) =>
        match loop rest t' errors' with
        | (t'', errors'', effects', ended) =>
          (t'', errors'', effects ++ effects', ended)
        end
      end
    end
  else (t, consecutive_errors, [], true).

(** [run]: the loop, with [consecutive_errors = 0]. *)
Definition run (polls : list poll) (t : Thread) : Thread * Z * list effect * bool :=
  loop polls t 0.

Definition thread_of (r : Thread * Z * list effect * bool) : Thread :=
  fst (fst (fst r)).
Definition effects_of (r : Thread * Z * list effect * bool) : list effect :=
  snd (fst r).
Definition errors_of (r : Thread * Z * list effect * bool) : Z :=
  snd (fst (fst r)).
Definition ended (r : Thread * Z * list effect * bool) : bool := snd r.

(** The lines emitted, in order. *)
Fixpoint emitted (effects : list effect) : list str :=
  match effects with
  | [] => []
  | Emitted line :: rest => line :: emitted rest
  | Slept _ :: rest => emitted rest
  end.

(** A turn that leaves the error counter alone or raises it: a failure or
    a read that brings nothing. *)
Definition is_quiet (p : poll) : bool :=
  match p with
  | Failure => true
  | FileRead [] _ => true
  | _ => false
  end.

Definition is_failure (p : poll) : bool :=
  match p with
  | Failure => true
  | _ => false
  end.

Definition failures (polls : list poll) : nat :=
  length (List.filter is_failure polls).

(** Every sleep of whole seconds lasts from 1 to 10 seconds. *)
Definition sleeps_in_bounds (effects : list effect) : Prop :=
  Forall (fun e => match e with
                   | Slept (Seconds n) => 1 <= n <= 10
                   | _ => True
                   end) effects.

End Monitor.

(* ===================================================================== *)
(** ** Facts about blocks *)
(* ===================================================================== *)

Module PyFacts.
Import Py.

Section Blocks.
Context {S : Type}.

Lemma bind_value {A B} (m : M S A) (f : A -> M S B) s s' a :
  m s = (s', Value a) -> bind m f s = f a s'.
Proof. unfold bind. intros ->. reflexivity. Qed.

Lemma bind_return {A B} (m : M S A) (f : A -> M S B) s s' :
  m s = (s', Return) -> bind m f s = (s', Return).
Proof. unfold bind. intros ->. reflexivity. Qed.

Lemma bind_raise {A B} (m : M S A) (f : A -> M S B) s s' e :
  m s = (s', Raise e) -> bind m f s = (s', Raise e).
Proof. unfold bind. intros ->. reflexivity. Qed.

Lemma keeps_bind {A B} (I : S -> Prop) (m : M S A) (f : A -> M S B) :
  keeps I m -> (forall a, keeps I (f a)) -> keeps I (bind m f).
Proof.
  intros Hm Hf s Hs. unfold bind. specialize (Hm s Hs).
  destruct (m s) as [s' [a| |e]]; simpl in *; auto. apply Hf, Hm.
Qed.

Lemma keeps_ret {A} (I : S -> Prop) (a : A) : keeps I (ret a).
Proof. intros s Hs. exact Hs. Qed.

Lemma keeps_gets {A} (I : S -> Prop) (f : S -> A) : keeps I (gets f).
Proof. intros s Hs. exact Hs. Qed.

Lemma keeps_return {A} (I : S -> Prop) : keeps I (@return_ S A).
Proof. intros s Hs. exact Hs. Qed.

Lemma keeps_raise {A} (I : S -> Prop) e : keeps I (@raise S A e).
Proof. intros s Hs. exact Hs. Qed.

Lemma keeps_modify (I : S -> Prop) (f : S -> S) :
  (forall s, I s -> I (f s)) -> keeps I (modify f).
Proof. intros Hf s Hs. apply Hf, Hs. Qed.

Lemma keeps_get_attr {A} (I : S -> Prop) name (f : S -> option A) : keeps I (get_attr name f).
Proof. intros s Hs. unfold get_attr. destruct (f s); exact Hs. Qed.

Lemma keeps_read_local {A} (I : S -> Prop) name (v : option A) : keeps I (read_local name v).
Proof. intros s Hs. destruct v; exact Hs. Qed.

Lemma keeps_to_int (I : S -> Prop) s : keeps I (to_int s).
Proof. intros st Hs. unfold to_int. destruct (PyStr.int s); exact Hs. Qed.

(** What follows [int] runs on the value of [int] only. *)
Lemma keeps_to_int_bind {B} (I : S -> Prop) s (f : Z -> M S B) :
  (forall n, PyStr.int s = Some n -> keeps I (f n)) -> keeps I (bind (to_int s) f).
Proof.
  intros Hf st Hs. unfold bind, to_int.
  destruct (PyStr.int s) as [n|]; simpl; [apply (Hf n eq_refl), Hs | exact Hs].
Qed.

Lemma to_int_value s n (st : S) : PyStr.int s = Some n -> to_int s st = (st, Value n).
Proof. unfold to_int. intros ->. reflexivity. Qed.

Lemma to_int_raises s (st : S) : PyStr.int s = None -> to_int s st = (st, Raise ValueError).
Proof. unfold to_int. intros ->. reflexivity. Qed.

Lemma keeps_when (I : S -> Prop) b (m : M S unit) : keeps I m -> keeps I (when b m).
Proof. intros Hm. destruct b; [exact Hm | apply keeps_ret]. Qed.

Lemma keeps_call (I : S -> Prop) (m : M S unit) : keeps I m -> keeps I (call m).
Proof.
  intros Hm s Hs. unfold call. specialize (Hm s Hs).
  destruct (m s) as [s' [a| |e]]; exact Hm.
Qed.

Lemma keeps_try_except_pass (I : S -> Prop) (m : M S unit) :
  keeps I m -> keeps I (try_except_pass m).
Proof.
  intros Hm s Hs. unfold try_except_pass. specialize (Hm s Hs).
  destruct (m s) as [s' [a| |e]]; exact Hm.
Qed.

Lemma stops_return {A} : stops (@return_ S A).
Proof. intros s a. discriminate. Qed.

Lemma stops_raise {A} e : stops (@raise S A e).
Proof. intros s a. discriminate. Qed.

Lemma stops_bind_l {A B} (m : M S A) (f : A -> M S B) :
  stops m -> stops (bind m f).
Proof.
  intros Hm s b. unfold bind. specialize (Hm s).
  destruct (m s) as [s' [a| |e]]; simpl in *; [|discriminate..].
  exfalso. exact (Hm a eq_refl).
Qed.

Lemma stops_bind_r {A B} (m : M S A) (f : A -> M S B) :
  (forall a, stops (f a)) -> stops (bind m f).
Proof.
  intros Hf s b. unfold bind.
  destruct (m s) as [s' [a| |e]]; simpl; [apply Hf|discriminate..].
Qed.

(** [try/except] never hands an exception to the caller. *)
Lemma try_except_pass_no_raise (m : M S unit) s e :
  snd (try_except_pass m s) <> Raise e.
Proof.
  unfold try_except_pass. destruct (m s) as [s' [a| |e']]; discriminate.
Qed.

Lemma try_except_pass_state (m : M S unit) s :
  fst (try_except_pass m s) = fst (m s).
Proof.
  unfold try_except_pass. destruct (m s) as [s' [a| |e']]; reflexivity.
Qed.

End Blocks.

End PyFacts.

(* ===================================================================== *)
(** ** Properties of the tracker *)
(* ===================================================================== *)

Module Properties.
Import PyStr Re Py PyFacts Tracker.
Local Open Scope py_scope.

Lemma insert_ordered_elem x l y :
  y ∈ insert_ordered x l <-> y = x \/ y ∈ l.
Proof.
  induction l as [|z l IH]; simpl.
  - rewrite list_elem_of_singleton, elem_of_nil. tauto.
  - destruct (Z.ltb_spec x z).
    + rewrite elem_of_cons. tauto.
    + destruct (Z.eqb_spec x z) as [->|Hne].
      * rewrite elem_of_cons. tauto.
      * rewrite !elem_of_cons, IH. tauto.
Qed.

Lemma foldr_insert_ordered_elem l y :
  y ∈ foldr insert_ordered [] l <-> y ∈ l.
Proof.
  induction l as [|z l IH]; simpl; [tauto|].
  rewrite insert_ordered_elem, IH, elem_of_cons. tauto.
Qed.

Lemma ordered_runtime_laws : RuntimeLaws ordered_runtime.
Proof.
  split; [exact insert_ordered_elem | exact foldr_insert_ordered_elem].
Qed.

(** *** The patterns and the methods on concrete lines *)

Example literal_code_points :
  COMBAT_TERMINE
  = [67; 111; 109; 98; 97; 116; 32; 116; 101; 114; 109; 105; 110; 8730; 169]%N.
Proof. reflexivity. Qed.

Example rage_pattern_captures_total :
  from_option (fun m => int (group 1 m)) None (search re_rage line_rage_140) = Some 140.
Proof. vm_compute. reflexivity. Qed.

Example player_rage_pattern_captures_actor :
  option_map (group 1) (search re_player_rage line_rage_140) = Some BOB.
Proof. vm_compute. reflexivity. Qed.

Example tagged_gain_pattern_captures_tag :
  option_map (group 2) (search re_tracker_gain line_tracker_80_tagged)
  = Some (u "Compulsion").
Proof. vm_compute. reflexivity. Qed.

Example cast_pattern_backtracks_to_last_space :
  option_map (group 1)
    (search re_player_spell_space (u "[Information (combat)] Bob le Iop lance le sort Bond"))
  = Some (u "Bob le Iop").
Proof. vm_compute. reflexivity. Qed.

Example damage_pattern_example :
  option_map (fun m => (group 1 m, int (group 2 m))) (search re_damage line_damage)
  = Some (u "Sac", Some 64).
Proof. vm_compute. reflexivity. Qed.

Example strip_example : strip (u "  Bob le Iop  ") = u "Bob le Iop".
Proof. vm_compute. reflexivity. Qed.

Example cast_line_run :
  parse_log_line_body (RT := ordered_runtime) line_cast_bond init
  = (set_last_spell_caster (Some BOB)
       (set_processed_lines [hash_poly line_cast_bond] init),
     Raise (AttributeError "ougi_spells")).
Proof. vm_compute. reflexivity. Qed.

Example combat_end_line_run :
  result (parse_log_line_body (RT := ordered_runtime) line_combat_end) st_bob_armed
  = Raise (AttributeError "current_turn_spells").
Proof. vm_compute. reflexivity. Qed.

Section Lifecycle.
Context {RT : Runtime}.

(** The duplicate check either returns or records the fingerprint. *)
Lemma skip_or_record_run line st :
  skip_or_record line st
  = if is_duplicate st line then (st, Return) else (recorded line st, Value tt).
Proof.
  unfold skip_or_record, is_duplicate, bind, gets. simpl.
  destruct (bool_decide _); reflexivity.
Qed.

Lemma duplicate_check_run line st :
  duplicate_check line st
  = if is_duplicate st line then (st, Return) else (recorded line st, Value tt).
Proof.
  unfold duplicate_check.
  destruct (contains _ _); [destruct (matched _)|]; apply skip_or_record_run.
Qed.

Lemma trim_processed_lines_run st :
  trim_processed_lines st = (trimmed st, Value tt).
Proof.
  unfold trim_processed_lines, trimmed, bind, gets, when, modify, ret. simpl.
  destruct (_ <? _)%nat; reflexivity.
Qed.

Lemma sac_patate_check_run line st :
  sac_patate_check line st = (flagged line st, Value tt).
Proof.
  unfold sac_patate_check, flagged, sac_marker, when, assign, modify, ret.
  destruct (_ && _); reflexivity.
Qed.

(** Lines 883-922 on a line that is not a duplicate. *)
Lemma checks_run {A} line st (k : M State A) :
  is_duplicate st line = false ->
  (duplicate_check line >> trim_processed_lines >> sac_patate_check line >> k) st
  = k (accepted line st).
Proof.
  intros Hnew.
  erewrite bind_value; [|rewrite duplicate_check_run, Hnew; reflexivity].
  erewrite bind_value; [|apply trim_processed_lines_run].
  erewrite bind_value; [|apply sac_patate_check_run].
  reflexivity.
Qed.

Lemma lifecycle_duplicate line st :
  is_duplicate st line = true -> lifecycle_part line st = (st, Return).
Proof.
  intros Hdup. unfold lifecycle_part.
  apply bind_return. rewrite duplicate_check_run, Hdup. reflexivity.
Qed.

Lemma accepted_flag line st :
  is_sac_patate_combat (accepted line st)
  = is_sac_patate_combat st || sac_marker line.
Proof.
  unfold accepted, flagged, trimmed, recorded.
  destruct (sac_marker line), (_ <? _)%nat; simpl;
    rewrite ?orb_true_r, ?orb_false_r; reflexivity.
Qed.

Lemma accepted_same_but_window_and_flag line st :
  same_but_window_and_flag st (accepted line st).
Proof.
  unfold same_but_window_and_flag, accepted, flagged, trimmed, recorded.
  destruct st. destruct (sac_marker line), (_ <? _)%nat; reflexivity.
Qed.

Lemma accepted_same_resources line st : same_resources st (accepted line st).
Proof.
  unfold same_resources, accepted, flagged, trimmed, recorded.
  destruct (sac_marker line), (_ <? _)%nat; simpl; tauto.
Qed.

Lemma combat_ended_local_run line s :
  combat_ended_local line s
  = (s, Value (if contains COMBAT_TERMINE line || contains COMBAT_TERMINE_LONG line
                  || ko_marker line && is_sac_patate_combat s
               then Some true else None)).
Proof.
  unfold combat_ended_local, ko_marker, bind, gets, ret.
  destruct (contains COMBAT_TERMINE line || contains COMBAT_TERMINE_LONG line);
    simpl; [reflexivity|].
  destruct (_ && _); reflexivity.
Qed.

(** A plain line that is not a duplicate reaches line 1000 with
    [combat_ended] unbound. *)
Lemma lifecycle_plain line st :
  is_duplicate st line = false ->
  is_plain_line st line = true ->
  lifecycle_part line st
  = (accepted line st, Raise (UnboundLocalError "combat_ended")).
Proof.
  intros Hnew Hplain. unfold is_plain_line, is_cast_line, has_end_marker in Hplain.
  apply andb_true_iff in Hplain as [Hcast Hend].
  apply negb_true_iff in Hcast, Hend.
  unfold lifecycle_part. rewrite checks_run by exact Hnew.
  rewrite Hcast. simpl when.
  erewrite bind_value; [|reflexivity].
  erewrite bind_value; [|apply combat_ended_local_run].
  rewrite accepted_flag, Hend. reflexivity.
Qed.

(** A combat-end line that is not a duplicate runs lines 1001-1029. *)
Lemma lifecycle_combat_end line st :
  is_duplicate st line = false ->
  is_combat_end_line st line = true ->
  lifecycle_part line st = combat_end_block (accepted line st).
Proof.
  intros Hnew Hend. unfold is_combat_end_line, is_cast_line, has_end_marker in Hend.
  apply andb_true_iff in Hend as [Hcast Hend].
  apply negb_true_iff in Hcast.
  unfold lifecycle_part. rewrite checks_run by exact Hnew.
  rewrite Hcast. simpl when.
  erewrite bind_value; [|reflexivity].
  erewrite bind_value; [|apply combat_ended_local_run].
  rewrite accepted_flag, Hend. reflexivity.
Qed.

Lemma combat_end_block_stops : stops combat_end_block.
Proof.
  unfold combat_end_block.
  repeat (apply stops_bind_r; intros ?).
  apply stops_return.
Qed.

Lemma spell_cast_block_stops line : stops (spell_cast_block line).
Proof.
  unfold spell_cast_block.
  repeat (apply stops_bind_r; intros ?).
  apply stops_return.
Qed.

(** Lines 883-1029 never fall through: whatever the line, the handlers of
    lines 1032-1227 are not reached. *)
Lemma lifecycle_stops line : stops (lifecycle_part line).
Proof.
  unfold lifecycle_part.
  do 3 (apply stops_bind_r; intros ?).
  destruct (contains LANCE_LE_SORT line); simpl when.
  - apply stops_bind_l, spell_cast_block_stops.
  - apply stops_bind_r; intros _. intros s r.
    erewrite bind_value; [|apply combat_ended_local_run].
    destruct (_ || _); simpl; [|discriminate].
    apply combat_end_block_stops.
Qed.

(** So the body is its first part. *)
Lemma parse_log_line_body_lifecycle line st :
  parse_log_line_body line st = lifecycle_part line st.
Proof.
  unfold parse_log_line_body, bind.
  pose proof (lifecycle_stops line st) as Hstop.
  destruct (lifecycle_part line st) as [s' [[]| |e]]; simpl in *;
    [exfalso; exact (Hstop tt eq_refl) | reflexivity..].
Qed.

Lemma exec_parse_log_line line st :
  exec (parse_log_line line) st = fst (lifecycle_part line st).
Proof.
  unfold exec, parse_log_line.
  rewrite try_except_pass_state, parse_log_line_body_lifecycle. reflexivity.
Qed.

(** What a line does when it is a duplicate, and when it is plain. *)
Lemma exec_duplicate line st :
  is_duplicate st line = true -> exec (parse_log_line line) st = st.
Proof.
  intros Hdup. rewrite exec_parse_log_line, lifecycle_duplicate by exact Hdup.
  reflexivity.
Qed.

Lemma exec_plain line st :
  is_plain_line st line = true ->
  exec (parse_log_line line) st
  = if is_duplicate st line then st else accepted line st.
Proof.
  intros Hplain. destruct (is_duplicate st line) eqn:Hdup.
  - apply exec_duplicate, Hdup.
  - rewrite exec_parse_log_line, lifecycle_plain by assumption. reflexivity.
Qed.

Lemma same_resources_refl st : same_resources st st.
Proof. unfold same_resources. tauto. Qed.

Lemma same_but_window_and_flag_refl st : same_but_window_and_flag st st.
Proof. unfold same_but_window_and_flag. destruct st. reflexivity. Qed.

Lemma plain_line_same_but_window_and_flag line st :
  is_plain_line st line = true ->
  same_but_window_and_flag st (exec (parse_log_line line) st).
Proof.
  intros Hplain. rewrite exec_plain by exact Hplain.
  destruct (is_duplicate st line);
    [apply same_but_window_and_flag_refl | apply accepted_same_but_window_and_flag].
Qed.

Lemma plain_line_same_resources line st :
  is_plain_line st line = true ->
  same_resources st (exec (parse_log_line line) st).
Proof.
  intros Hplain. rewrite exec_plain by exact Hplain.
  destruct (is_duplicate st line);
    [apply same_resources_refl | apply accepted_same_resources].
Qed.

Lemma plain_line_same_tracked_actor line st :
  is_plain_line st line = true ->
  tracked_player_name (exec (parse_log_line line) st) = tracked_player_name st.
Proof.
  intros Hplain.
  rewrite (plain_line_same_but_window_and_flag line st Hplain). reflexivity.
Qed.

(** A line without a KO phrase and without the end phrase is plain in
    every state, if it is not a cast. *)
Lemma plain_in_every_state line st :
  is_cast_line line = false ->
  contains COMBAT_TERMINE line = false ->
  contains COMBAT_TERMINE_LONG line = false ->
  ko_marker line = false ->
  is_plain_line st line = true.
Proof.
  intros Hc H1 H2 H3. unfold is_plain_line, has_end_marker.
  rewrite Hc, H1, H2, H3. reflexivity.
Qed.

End Lifecycle.

(** *** Wrap-counter and stack-counter gains *)

(** What the gain handlers do on a line their pattern matches. *)
Lemma rage_block_run line m n st :
  search re_rage line = Some m ->
  int (group 1 m) = Some n ->
  let st' := exec (rage_block line) st in
  rage st' = (if 100 <=? n then n mod 100 else n) /\
  prey st' = (if 100 <=? n then false else prey st) /\
  result (rage_block line) st = Return.
Proof.
  intros Hm Hn st'. subst st'. unfold exec, result, rage_block. rewrite Hm.
  unfold bind, to_int, assign, modify, lose_prey, gets, when, return_, ret.
  rewrite Hn.
  destruct (search re_player_rage line); cbn -[Z.modulo Z.leb];
    destruct (100 <=? n); cbn -[Z.modulo];
    try (destruct (prey st) eqn:Hprey; cbn -[Z.modulo]); auto.
Qed.

(** A total of more than [max_str_digits] digits: [int] raises at line
    1043, after the write of line 1041 and before any write of the wrap
    counter. *)
Lemma rage_block_too_long line m st :
  search re_rage line = Some m ->
  int (group 1 m) = None ->
  let st' := exec (rage_block line) st in
  rage st' = rage st /\ prey st' = prey st /\
  result (rage_block line) st = Raise ValueError.
Proof.
  intros Hm Hn st'. subst st'. unfold exec, result, rage_block. rewrite Hm.
  unfold bind, to_int, assign, modify. rewrite Hn.
  destruct (search re_player_rage line); cbn; auto.
Qed.

Lemma tracker_block_run line m n st :
  search re_tracker line = Some m ->
  int (group 1 m) = Some n ->
  tracker (exec (tracker_block line) st) = Z.min n 50 /\
  result (tracker_block line) st = Return.
Proof.
  intros Hm Hn. unfold exec, result, tracker_block. rewrite Hm.
  unfold bind, to_int. rewrite Hn. split; reflexivity.
Qed.

Lemma tracker_block_too_long line m st :
  search re_tracker line = Some m ->
  int (group 1 m) = None ->
  tracker_block line st = (st, Raise ValueError).
Proof.
  intros Hm Hn. unfold tracker_block. rewrite Hm.
  unfold bind, to_int. rewrite Hn. reflexivity.
Qed.

Lemma tracker_gain_block_run line m n st :
  search re_tracker_gain line = Some m ->
  int (group 1 m) = Some n ->
  tracker (exec (tracker_gain_block line) st) = Z.min n 4.
Proof.
  intros Hm Hn. unfold exec, tracker_gain_block. rewrite Hm.
  unfold bind, to_int. rewrite Hn. reflexivity.
Qed.

Ltac plain_everywhere :=
  apply plain_in_every_state; vm_compute; reflexivity.

(** C1, the defect. The gain line with total 140 is a wrap-counter gain,
    and the handler of lines 1036-1061 run on it sets the counter to 40 and
    clears the flag. [parse_log_line] never gets there: in every state the
    line leaves counter and flag as they were, and a line that is not a
    duplicate ends in the unbound [combat_ended] of line 1000. *)
Theorem wrap_gain_140_not_applied (RT : Runtime) (st : State) :
  is_rage_gain line_rage_140 = true /\
  rage (exec (rage_block line_rage_140) st) = 40 /\
  prey (exec (rage_block line_rage_140) st) = false /\
  rage (exec (parse_log_line line_rage_140) st) = rage st /\
  prey (exec (parse_log_line line_rage_140) st) = prey st /\
  (is_duplicate st line_rage_140 = false ->
   result (parse_log_line_body line_rage_140) st
   = Raise (UnboundLocalError "combat_ended")).
Proof.
  assert (Hplain : is_plain_line st line_rage_140 = true) by plain_everywhere.
  split; [vm_compute; reflexivity|].
  split; [destruct st as [? ? [] ? ? ? ? ? ? ? ? ? ? ? ? ? ? ? ? ? ?];
          vm_compute; reflexivity|].
  split; [destruct st as [? ? [] ? ? ? ? ? ? ? ? ? ? ? ? ? ? ? ? ? ?];
          vm_compute; reflexivity|].
  pose proof (plain_line_same_resources _ _ Hplain) as (Hr & _ & Hp & _).
  split; [exact Hr|]. split; [exact Hp|].
  intros Hnew. unfold result.
  rewrite parse_log_line_body_lifecycle, lifecycle_plain by assumption.
  reflexivity.
Qed.

(** C2, the defect. Run on their lines, the handler of lines 1131-1137
    caps a gain of 80 at 50 and the handler of lines 1153-1163 caps it at 4;
    the tagged line also matches the pattern of line 1131, which comes
    first and caps at 50. [parse_log_line] reaches neither: both lines
    leave the stack counter as it was. *)
Theorem stack_gain_80_not_applied (RT : Runtime) (st : State) :
  is_stack_gain line_tracker_80 = true /\
  is_tagged_stack_gain line_tracker_80_tagged = true /\
  tracker (exec (tracker_block line_tracker_80) st) = 50 /\
  tracker (exec (tracker_gain_block line_tracker_80_tagged) st) = 4 /\
  tracker (exec (tracker_block line_tracker_80_tagged) st) = 50 /\
  tracker (exec (parse_log_line line_tracker_80) st) = tracker st /\
  tracker (exec (parse_log_line line_tracker_80_tagged) st) = tracker st.
Proof.
  assert (H1 : is_plain_line st line_tracker_80 = true) by plain_everywhere.
  assert (H2 : is_plain_line st line_tracker_80_tagged = true) by plain_everywhere.
  repeat (split; [vm_compute; reflexivity|]).
  split; [apply (plain_line_same_resources _ _ H1)
         |apply (plain_line_same_resources _ _ H2)].
Qed.

(** *** Ownership *)

(** The gain handlers themselves do not look at the actor: with Alice
    tracked, the handler of lines 1036-1061 run on Bob's gain sets the
    wrap counter and binds Bob, and the handler of lines 1131-1137 sets the
    stack counter. *)
Lemma gain_handlers_have_no_gate :
  let st := set_tracked_player_name (Some ALICE) init in
  rage (exec (rage_block line_rage_140) st) = 40 /\
  tracked_player_name (exec (rage_block line_rage_140) st) = Some BOB /\
  tracker (exec (tracker_block line_tracker_80) st) = 50.
Proof. vm_compute. repeat split. Qed.


(** C3. A counter gain or loss line whose actor is not the tracked actor
    leaves the wrap counter and the stack counter as they were. The line is
    one that the classification makes a counter event: not a cast, not a
    combat end. *)
Theorem other_actor_event_keeps_counters
    (RT : Runtime) (st : State) (line actor : str) :
  is_plain_line st line = true ->
  is_counter_event line = true ->
  event_actor line = Some actor ->
  tracked_player_name st <> Some actor ->
  rage (exec (parse_log_line line) st) = rage st /\
  tracker (exec (parse_log_line line) st) = tracker st.
Proof.
  intros Hplain _ _ _.
  pose proof (plain_line_same_resources _ _ Hplain) as (Hr & Ht & _).
  split; assumption.
Qed.

(** C3 on Bob's gain line with Alice tracked. *)
Lemma other_actor_event_keeps_counters_witness :
  let st := set_tracker 3 (set_rage 30 (set_tracked_player_name (Some ALICE) init)) in
  rage (exec (parse_log_line (RT := ordered_runtime) line_rage_140) st) = 30 /\
  tracker (exec (parse_log_line (RT := ordered_runtime) line_rage_140) st) = 3.
Proof.
  apply (other_actor_event_keeps_counters ordered_runtime
           (set_tracker 3 (set_rage 30 (set_tracked_player_name (Some ALICE) init)))
           line_rage_140 BOB).
  - vm_compute. reflexivity.
  - vm_compute. reflexivity.
  - vm_compute. reflexivity.
  - vm_compute. discriminate.
Defined.

(** *** The unbound [combat_ended] *)

(** C9 as stated fails on a duplicate: fed a second time, a plain line is
    turned away at line 913, before [combat_ended] is read, and nothing is
    raised. *)
Lemma duplicate_plain_line_does_not_raise :
  let st := exec (parse_log_line (RT := ordered_runtime) line_rage_140) init in
  is_plain_line st line_rage_140 = true /\
  result (parse_log_line_body (RT := ordered_runtime) line_rage_140) st = Return /\
  result (parse_log_line_body (RT := ordered_runtime) line_rage_140) st
  <> Raise (UnboundLocalError "combat_ended").
Proof.
  vm_compute. repeat split; discriminate.
Qed.

(** C9, amended. For a line that is neither a cast nor a combat end: if it
    is not a duplicate, the body ends at line 1000 with [combat_ended]
    unbound, and [parse_log_line] swallows the error; if it is a
    duplicate, the body returns before that. Either way lines 883-1029
    never fall through to the handlers of lines 1032-1227, and the line
    changes no resource field. *)
Theorem plain_line_stops_at_combat_ended
    (RT : Runtime) (st : State) (line : str) :
  is_plain_line st line = true ->
  (is_duplicate st line = false ->
   result (parse_log_line_body line) st = Raise (UnboundLocalError "combat_ended")) /\
  (is_duplicate st line = true ->
   result (parse_log_line_body line) st = Return) /\
  (forall e, result (parse_log_line line) st <> Raise e) /\
  (forall r, result (lifecycle_part line) st <> Value r) /\
  same_resources st (exec (parse_log_line line) st).
Proof.
  intros Hplain. unfold result.
  split; [|split; [|split; [|split]]].
  - intros Hnew.
    rewrite parse_log_line_body_lifecycle, lifecycle_plain by assumption.
    reflexivity.
  - intros Hdup.
    rewrite parse_log_line_body_lifecycle, lifecycle_duplicate by assumption.
    reflexivity.
  - intros e. apply try_except_pass_no_raise.
  - intros r. apply lifecycle_stops.
  - apply plain_line_same_resources, Hplain.
Qed.

(** C9, amended, on a stack gain line that is not a duplicate. *)
Lemma plain_line_stops_at_combat_ended_witness :
  result (parse_log_line_body (RT := ordered_runtime) line_tracker_80) st_bob_armed
  = Raise (UnboundLocalError "combat_ended") /\
  same_resources st_bob_armed
    (exec (parse_log_line (RT := ordered_runtime) line_tracker_80) st_bob_armed).
Proof.
  destruct (plain_line_stops_at_combat_ended ordered_runtime st_bob_armed
              line_tracker_80) as (Hraise & _ & _ & _ & Hsame).
  - vm_compute. reflexivity.
  - split; [apply Hraise; vm_compute; reflexivity | exact Hsame].
Defined.

(** *** Invariants of the whole method *)

Ltac keeps_step :=
  lazymatch goal with
  | |- keeps _ (bind _ _) => apply keeps_bind; [|intros ?]
  | |- keeps _ (ret _) => apply keeps_ret
  | |- keeps _ (gets _) => apply keeps_gets
  | |- keeps _ return_ => apply keeps_return
  | |- keeps _ (raise _) => apply keeps_raise
  | |- keeps _ (get_attr _ _) => apply keeps_get_attr
  | |- keeps _ (read_local _ _) => apply keeps_read_local
  | |- keeps _ (to_int _) => apply keeps_to_int
  | |- keeps _ (when _ _) => apply keeps_when
  | |- keeps _ (call _) => apply keeps_call
  | |- keeps _ (try_except_pass _) => apply keeps_try_except_pass
  | |- keeps _ (assign _ _) => apply keeps_modify; intros ? ?; simpl; try assumption
  | |- keeps _ (modify _) => apply keeps_modify; intros ? ?; simpl; try assumption
  | |- keeps _ (if ?b then _ else _) => destruct b
  | |- keeps _ (match ?x with _ => _ end) => destruct x
  end.

Ltac keeps_all := cbv zeta; repeat (keeps_step; cbv zeta).

Section NoPending.
Context {RT : Runtime}.

Lemma add_spell_to_timeline_not_pending spell_name :
  keeps not_pending (add_spell_to_timeline spell_name).
Proof. unfold add_spell_to_timeline, not_pending. keeps_all. Qed.

Lemma spell_cast_block_not_pending line :
  keeps not_pending (spell_cast_block line).
Proof.
  pose proof add_spell_to_timeline_not_pending as Hadd.
  unfold spell_cast_block, not_pending in *. keeps_all; apply Hadd.
Qed.

Lemma lifecycle_part_not_pending line : keeps not_pending (lifecycle_part line).
Proof.
  pose proof (spell_cast_block_not_pending line) as Hcast.
  unfold lifecycle_part, duplicate_check, skip_or_record, trim_processed_lines,
    sac_patate_check, combat_ended_local, combat_end_block, not_pending in *.
  keeps_all; try reflexivity; apply Hcast.
Qed.

Lemma resource_handlers_not_pending line :
  keeps not_pending (resource_handlers line).
Proof.
  unfold resource_handlers, rage_block, turn_pass_block, tracker_block,
    tracker_loss_isole_block, tracker_gain_block, tracker_loss_compulsion_block,
    tracker_damage_block, preparation_block, damage_block, tracker_loss,
    lose_prey, cancel_pending, not_pending.
  keeps_all; reflexivity.
Qed.

(** No statement of [parse_log_line] sets [pending_rage_loss] to [True]. *)
Lemma parse_log_line_not_pending line : keeps not_pending (parse_log_line line).
Proof.
  unfold parse_log_line, parse_log_line_body.
  apply keeps_try_except_pass, keeps_bind;
    [apply lifecycle_part_not_pending | intros _; apply resource_handlers_not_pending].
Qed.

(** Lines 883-1029 write the preparation counter at combat end only, and
    write 0. *)
Lemma lifecycle_part_rage_zero line :
  keeps (fun s => rage s = 0) (lifecycle_part line).
Proof.
  unfold lifecycle_part, duplicate_check, skip_or_record, trim_processed_lines,
    sac_patate_check, spell_cast_block, add_spell_to_timeline,
    combat_ended_local, combat_end_block.
  keeps_all; reflexivity.
Qed.

Lemma reachable_rage_zero st : reachable st -> rage st = 0.
Proof.
  induction 1 as [|st line _ IH|st _ IH _].
  - reflexivity.
  - rewrite exec_parse_log_line. apply (lifecycle_part_rage_zero line st IH).
  - exact IH.
Qed.

Lemma reachable_not_pending st : reachable st -> pending_rage_loss st = false.
Proof.
  induction 1 as [|st line _ IH|st _ IH _].
  - reflexivity.
  - apply (parse_log_line_not_pending line st IH).
  - exact IH.
Qed.

End NoPending.

(** C10. [pending_rage_loss] is false in every reachable state. So on no
    line does the branch of lines 1206-1225 run: the damage handler leaves
    the state as it is and falls through; and no line that the damage
    pattern matches changes the preparation counter. *)
Theorem pending_never_armed (RT : Runtime) (st : State) :
  reachable st ->
  pending_rage_loss st = false /\
  (forall line, damage_block line st = (st, Value tt)) /\
  (forall line,
     is_damage line = true ->
     rage (exec (parse_log_line line) st) = rage st).
Proof.
  intros Hreach. pose proof (reachable_not_pending st Hreach) as Hpending.
  split; [exact Hpending|]. split.
  - intros line. unfold damage_block, bind, gets, when. simpl.
    rewrite Hpending. destruct (search re_damage line); reflexivity.
  - intros line _.
    rewrite (reachable_rage_zero st Hreach).
    apply (reachable_rage_zero _ (reachable_line st line Hreach)).
Qed.

(** C10 after a cast line and a damage line. *)
Lemma pending_never_armed_witness :
  pending_rage_loss
    (exec (parse_log_line (RT := ordered_runtime) line_damage)
       (exec (parse_log_line (RT := ordered_runtime) line_cast_bond) init))
  = false.
Proof.
  apply (pending_never_armed ordered_runtime).
  apply reachable_line, reachable_line, reachable_init.
Defined.

(** *** The whole method *)

Lemma keeps_gets_with {S A B} (I : S -> Prop) (f : S -> A) (k : A -> M S B) :
  (forall s, I s -> I (fst (k (f s) s))) -> keeps I (bind (gets f) k).
Proof. intros Hk s Hs. unfold bind, gets. simpl. apply Hk, Hs. Qed.

Section WholeMethod.
Context {RT : Runtime}.

(** A cast line that is not a duplicate runs lines 925-990 and ends there. *)
Lemma exec_cast line st :
  is_cast_line line = true ->
  exec (parse_log_line line) st
  = if is_duplicate st line then st
    else fst (spell_cast_block line (accepted line st)).
Proof.
  intros Hcast. destruct (is_duplicate st line) eqn:Hdup.
  - apply exec_duplicate, Hdup.
  - rewrite exec_parse_log_line. unfold lifecycle_part.
    rewrite checks_run by exact Hdup.
    unfold is_cast_line in Hcast. rewrite Hcast. simpl when.
    unfold bind at 1.
    pose proof (spell_cast_block_stops line (accepted line st)) as Hstop.
    destruct (spell_cast_block line (accepted line st)) as [s' [[]| |e]];
      simpl in *; [exfalso; exact (Hstop tt eq_refl) | reflexivity..].
Qed.

(** Without [ougi_spells], lines 925-990 record the caster and fail. *)
Lemma spell_cast_block_without_spells line s :
  ougi_spells s = None ->
  spell_cast_block line s
  = (match caster_of line with
     | Some c => set_last_spell_caster (Some c) s
     | None => s
     end, Raise (AttributeError "ougi_spells")).
Proof.
  intros Hnone. unfold spell_cast_block, caster_of, player_spell_match.
  destruct (match search re_player_spell_colon line with
            | Some m => Some m
            | None => search re_player_spell_space line
            end) as [m|]; simpl matched; simpl when.
  - unfold bind at 1. unfold assign, modify. simpl.
    unfold bind at 1. unfold get_attr. simpl. rewrite Hnone. reflexivity.
  - unfold bind at 1. unfold ret. simpl.
    unfold bind at 1. unfold get_attr. rewrite Hnone. reflexivity.
Qed.

End WholeMethod.

(** *** What no sequence of lines does *)

Lemma only_three_written_fields s :
  only_three_written s <->
  rage s = 0 /\ tracker s = 0 /\ prey s = false /\
  current_rage s = 0 /\ current_tracker s = 0 /\ current_prey s = false /\
  pending_rage_loss s = false /\ rage_loss_caster s = None /\
  rage_loss_spell s = None /\ in_combat s = false /\
  tracked_player_name s = None /\ is_ougi_turn s = false /\
  overlay_visible s = false /\ last_etendard_cast s = false /\
  timeline_entries s = [] /\ ougi_spells s = None /\
  spell_cost_map s = None /\ current_turn_spells s = None.
Proof.
  unfold only_three_written. split.
  - intros ->. simpl. repeat split.
  - destruct s. simpl. intros H.
    repeat match goal with H : _ /\ _ |- _ => destruct H as [? H] end.
    subst. reflexivity.
Qed.

Ltac three_fields :=
  rewrite only_three_written_fields in *; simpl; tauto.

Section Reachable.
Context {RT : Runtime}.

Lemma accepted_only_three line st :
  only_three_written st -> only_three_written (accepted line st).
Proof.
  intros H. unfold accepted, flagged, trimmed, recorded.
  destruct (sac_marker line), (_ <? _)%nat; three_fields.
Qed.

Lemma combat_end_only_three s :
  only_three_written s -> only_three_written (fst (combat_end_block s)).
Proof.
  intros H.
  assert (Hnone : current_turn_spells s = None)
    by (rewrite only_three_written_fields in H; tauto).
  unfold combat_end_block, bind, assign, modify, get_attr, return_. simpl.
  rewrite Hnone. three_fields.
Qed.

Lemma parse_log_line_only_three line st :
  only_three_written st -> only_three_written (exec (parse_log_line line) st).
Proof.
  intros H. destruct (is_duplicate st line) eqn:Hdup.
  { rewrite exec_duplicate by exact Hdup. exact H. }
  pose proof (accepted_only_three line st H) as Hacc.
  destruct (is_cast_line line) eqn:Hcast.
  - rewrite exec_cast, Hdup by exact Hcast.
    rewrite spell_cast_block_without_spells
      by (rewrite only_three_written_fields in Hacc; tauto).
    destruct (caster_of line); simpl fst; [three_fields | exact Hacc].
  - destruct (has_end_marker st line) eqn:Hend.
    + rewrite exec_parse_log_line, lifecycle_combat_end;
        [apply combat_end_only_three, Hacc | exact Hdup |].
      unfold is_combat_end_line. rewrite Hcast, Hend. reflexivity.
    + rewrite exec_plain, Hdup; [exact Hacc|].
      unfold is_plain_line. rewrite Hcast, Hend. reflexivity.
Qed.

Lemma reachable_only_three st : reachable st -> only_three_written st.
Proof.
  induction 1 as [|st line _ IH|st _ IH Hlen].
  - reflexivity.
  - apply parse_log_line_only_three, IH.
  - exfalso. rewrite only_three_written_fields in IH.
    destruct IH as (_ & _ & _ & _ & _ & _ & _ & _ & _ & _ & _ & _ & _ & _ & Ht & _).
    rewrite Ht in Hlen. simpl in Hlen. unfold timeline_max_slots in Hlen. lia.
Qed.

End Reachable.

(** *** Combat end *)

Section CombatEnd.
Context {RT : Runtime}.

(** Lines 1001-1022 write the same values whether or not line 1023 fails. *)
Lemma combat_end_block_fields s :
  let s' := fst (combat_end_block s) in
  rage s' = 0 /\ tracker s' = 0 /\ prey s' = false /\
  current_rage s' = 0 /\ current_tracker s' = 0 /\ current_prey s' = false /\
  timeline_entries s' = [] /\
  pending_rage_loss s' = false /\ rage_loss_caster s' = None /\
  rage_loss_spell s' = None /\
  in_combat s' = false /\ is_sac_patate_combat s' = false /\
  is_ougi_turn s' = false /\ overlay_visible s' = false /\
  tracked_player_name s' = tracked_player_name s.
Proof.
  unfold combat_end_block, bind, assign, modify, get_attr, return_. simpl.
  destruct (current_turn_spells s); simpl; repeat split.
Qed.

Lemma accepted_tracked_actor line st :
  tracked_player_name (accepted line st) = tracked_player_name st.
Proof.
  rewrite (accepted_same_but_window_and_flag line st). reflexivity.
Qed.

End CombatEnd.

(** X21. In any state, a combat-end line that is not a duplicate sets the
    wrap counter and the stack counter to 0 and the flag to false, empties
    the timeline, clears the pending confirmation and ends the combat and
    the turn. Lines 1001-1029 do not write [tracked_player_name]: the
    binding is left as it was. *)
Theorem combat_end_resets (RT : Runtime) (st : State) (line : str) :
  is_duplicate st line = false ->
  is_combat_end_line st line = true ->
  let st' := exec (parse_log_line line) st in
  rage st' = 0 /\ tracker st' = 0 /\ prey st' = false /\
  current_rage st' = 0 /\ current_tracker st' = 0 /\ current_prey st' = false /\
  timeline_entries st' = [] /\
  pending_rage_loss st' = false /\ rage_loss_caster st' = None /\
  rage_loss_spell st' = None /\
  in_combat st' = false /\ is_sac_patate_combat st' = false /\
  is_ougi_turn st' = false /\ overlay_visible st' = false /\
  tracked_player_name st' = tracked_player_name st.
Proof.
  intros Hnew Hend st'. subst st'.
  rewrite exec_parse_log_line, lifecycle_combat_end by assumption.
  rewrite <- (accepted_tracked_actor line st).
  apply combat_end_block_fields.
Qed.

(** X21 on the combat-end line with Bob tracked. *)
Lemma combat_end_resets_witness :
  let st' := exec (parse_log_line (RT := ordered_runtime) line_combat_end) st_bob_armed in
  rage st' = 0 /\ tracker st' = 0 /\ prey st' = false /\
  current_rage st' = 0 /\ current_tracker st' = 0 /\ current_prey st' = false /\
  timeline_entries st' = [] /\
  pending_rage_loss st' = false /\ rage_loss_caster st' = None /\
  rage_loss_spell st' = None /\
  in_combat st' = false /\ is_sac_patate_combat st' = false /\
  is_ougi_turn st' = false /\ overlay_visible st' = false /\
  tracked_player_name st' = Some BOB.
Proof.
  apply (combat_end_resets ordered_runtime st_bob_armed line_combat_end).
  - vm_compute. reflexivity.
  - vm_compute. reflexivity.
Defined.



(** *** Turn pass *)



(** *** Failures *)

(** C6 as stated fails wherever a write comes before the failure. On a
    cast line, line 943 raises, for want of [ougi_spells], after line 940
    has recorded the caster. On a line with the special-encounter marker,
    line 1000 raises after line 922 has set the flag. Both writes stay. *)
Lemma failed_line_keeps_its_writes :
  result (parse_log_line_body (RT := ordered_runtime) line_cast_bond) init
  = Raise (AttributeError "ougi_spells") /\
  last_spell_caster (exec (parse_log_line (RT := ordered_runtime) line_cast_bond) init)
  = Some BOB /\
  exec (parse_log_line (RT := ordered_runtime) line_cast_bond) init <> init /\
  result (parse_log_line_body (RT := ordered_runtime) line_sac_patate) init
  = Raise (UnboundLocalError "combat_ended") /\
  is_sac_patate_combat (exec (parse_log_line (RT := ordered_runtime) line_sac_patate) init)
  = true /\
  exec (parse_log_line (RT := ordered_runtime) line_sac_patate) init <> init.
Proof.
  repeat (split; [vm_compute; reflexivity|]).
  split; [|repeat (split; [vm_compute; reflexivity|])].
  - intros Heq. apply (f_equal last_spell_caster) in Heq.
    vm_compute in Heq. discriminate.
  - intros Heq. apply (f_equal is_sac_patate_combat) in Heq.
    vm_compute in Heq. discriminate.
Qed.

(** C6, amended. [parse_log_line] never raises to its caller, and leaves
    the state where the body left it, whether the body failed or not. A
    duplicate changes nothing, and a line that is neither a cast nor a
    combat end changes at most the deduplication window and the
    special-encounter flag. *)
Theorem line_processing_never_raises (RT : Runtime) (st : State) (line : str) :
  (forall e, result (parse_log_line line) st <> Raise e) /\
  exec (parse_log_line line) st = fst (parse_log_line_body line st) /\
  (is_duplicate st line = true -> exec (parse_log_line line) st = st) /\
  (is_plain_line st line = true ->
   same_but_window_and_flag st (exec (parse_log_line line) st)).
Proof.
  split; [|split; [|split]].
  - intros e. apply try_except_pass_no_raise.
  - apply try_except_pass_state.
  - apply exec_duplicate.
  - apply plain_line_same_but_window_and_flag.
Qed.

(** C6, amended, on a damage line. *)
Lemma line_processing_never_raises_witness :
  same_but_window_and_flag st_bob_armed
    (exec (parse_log_line (RT := ordered_runtime) line_damage) st_bob_armed).
Proof.
  apply (line_processing_never_raises ordered_runtime st_bob_armed line_damage).
  vm_compute. reflexivity.
Defined.

(** *** Timeline *)

Lemma last_n_all {A} (n : nat) (l : list A) :
  (length l <= n)%nat -> last_n n l = l.
Proof.
  intros Hle. unfold last_n.
  replace (length l - n)%nat with 0%nat by lia. reflexivity.
Qed.

Lemma last_n_length {A} (n : nat) (l : list A) :
  length (last_n n l) = Nat.min n (length l).
Proof. unfold last_n. rewrite length_drop. lia. Qed.

Lemma last_n_snoc {A} (n : nat) (l : list A) (x : A) :
  last_n (S n) (last_n (S n) l ++ [x]) = last_n (S n) (l ++ [x]).
Proof.
  unfold last_n. rewrite !length_app, length_drop. simpl.
  destruct (decide (length l <= S n)%nat) as [Hle|Hgt].
  - replace (length l - S n)%nat with 0%nat by lia. simpl.
    rewrite Nat.sub_0_r. reflexivity.
  - rewrite drop_app_le by (rewrite length_drop; lia).
    rewrite drop_drop.
    rewrite (drop_app_le l) by lia.
    f_equal. f_equal. lia.
Qed.

(** One push of a known spell appends the entry and keeps the last
    [timeline_max_slots + 1]. *)
Lemma add_known_spell st cost_map spell_name :
  spell_cost_map st = Some cost_map ->
  known cost_map spell_name = true ->
  exec (add_spell_to_timeline spell_name) st
  = set_timeline_entries
      (last_n (timeline_max_slots + 1)
         (timeline_entries st ++ [entry_of cost_map spell_name])) st.
Proof.
  intros Hmap Hknown. unfold known in Hknown.
  apply andb_true_iff in Hknown as [Hc Hi].
  unfold exec, add_spell_to_timeline, bind, get_attr, gets, modify, when, ret.
  rewrite Hmap, Hc, Hi. simpl.
  fold (entry_of cost_map spell_name).
  destruct (_ <? _)%nat eqn:Hlen; simpl.
  - destruct st; reflexivity.
  - apply Nat.ltb_ge in Hlen. unfold entry_of.
    rewrite last_n_all; [reflexivity|].
    apply Nat.le_trans with (1 := Hlen). unfold timeline_max_slots. lia.
Qed.

Lemma add_unknown_spell st cost_map spell_name :
  spell_cost_map st = Some cost_map ->
  known cost_map spell_name = false ->
  exec (add_spell_to_timeline spell_name) st = st.
Proof.
  intros Hmap Hknown. unfold known in Hknown.
  unfold exec, add_spell_to_timeline, bind, get_attr.
  rewrite Hmap. cbv beta iota zeta.
  rewrite <- negb_andb, Hknown. reflexivity.
Qed.

Lemma last_n_app {A} (n : nat) (l es : list A) :
  last_n (S n) (last_n (S n) l ++ es) = last_n (S n) (l ++ es).
Proof.
  induction es as [|x es IH] using rev_ind.
  - rewrite !app_nil_r. apply last_n_all. rewrite last_n_length. lia.
  - rewrite !app_assoc, <- last_n_snoc, IH, last_n_snoc. reflexivity.
Qed.

Lemma push_all_known cost_map spells : forall st,
  spell_cost_map st = Some cost_map ->
  Forall (fun spell_name => known cost_map spell_name = true) spells ->
  (length (timeline_entries st) <= timeline_max_slots + 1)%nat ->
  timeline_entries (push_all spells st)
  = last_n (timeline_max_slots + 1)
      (timeline_entries st ++ map (entry_of cost_map) spells).
Proof.
  change (timeline_max_slots + 1)%nat with (S timeline_max_slots).
  induction spells as [|spell_name rest IH]; intros st Hmap Hall Hlen.
  - simpl. rewrite app_nil_r, last_n_all by exact Hlen. reflexivity.
  - inversion Hall as [|? ? Hknown Hrest]; subst.
    cbn [push_all map].
    rewrite (add_known_spell st cost_map spell_name Hmap Hknown).
    change (timeline_max_slots + 1)%nat with (S timeline_max_slots).
    rewrite IH; [| exact Hmap | exact Hrest |].
    + cbn [timeline_entries set_timeline_entries].
      rewrite last_n_app, <- app_assoc. reflexivity.
    + cbn [timeline_entries set_timeline_entries].
      rewrite last_n_length. apply Nat.le_min_l.
Qed.

(** X22. On an object that has been given a cost map, a spell without a
    cost or an icon stem makes no entry, and calls of
    [add_spell_to_timeline] on known spells, one after the other, leave the
    last [timeline_max_slots + 1] entries pushed, in push order, newest
    last: line 1529 keeps one entry more than the capacity, so six pushes
    on an empty timeline leave all six. *)
Theorem timeline_keeps_one_extra (st : State) (cost_map : gmap str str) :
  spell_cost_map st = Some cost_map ->
  (forall spell_name,
     known cost_map spell_name = false ->
     exec (add_spell_to_timeline spell_name) st = st) /\
  (forall spells,
     Forall (fun spell_name => known cost_map spell_name = true) spells ->
     (length (timeline_entries st) <= timeline_max_slots + 1)%nat ->
     timeline_entries (push_all spells st)
     = last_n (timeline_max_slots + 1)
         (timeline_entries st ++ map (entry_of cost_map) spells)) /\
  (forall spells,
     Forall (fun spell_name => known cost_map spell_name = true) spells ->
     timeline_entries st = [] -> length spells = 6%nat ->
     timeline_entries (push_all spells st) = map (entry_of cost_map) spells).
Proof.
  intros Hmap. split; [|split].
  - intros spell_name. apply add_unknown_spell, Hmap.
  - intros spells. apply push_all_known, Hmap.
  - intros spells Hall Hempty Hsix.
    rewrite (push_all_known cost_map spells st Hmap Hall)
      by (rewrite Hempty; simpl; lia).
    rewrite Hempty. simpl app.
    apply last_n_all. rewrite length_map, Hsix. reflexivity.
Qed.

(** X22 on an unknown spell and on six known ones. *)
Lemma timeline_keeps_one_extra_witness :
  exec (add_spell_to_timeline (u "Pression")) st_with_costs = st_with_costs /\
  timeline_entries (push_all six_spells st_with_costs)
  = map (entry_of sample_cost_map) six_spells.
Proof.
  destruct (timeline_keeps_one_extra st_with_costs sample_cost_map eq_refl)
    as (Hunknown & _ & Hsix).
  split.
  - apply Hunknown. vm_compute. reflexivity.
  - apply Hsix; [repeat constructor | reflexivity | reflexivity].
Defined.

(** Without [spell_cost_map], line 1513 raises before any write. *)
Lemma add_spell_without_cost_map st spell_name :
  spell_cost_map st = None ->
  add_spell_to_timeline spell_name st
  = (st, Raise (AttributeError "spell_cost_map")).
Proof.
  intros Hnone. unfold add_spell_to_timeline, bind, get_attr.
  rewrite Hnone. reflexivity.
Qed.

Lemma push_all_without_cost_map spells : forall st,
  spell_cost_map st = None -> push_all spells st = st.
Proof.
  induction spells as [|spell_name rest IH]; intros st Hnone; [reflexivity|].
  cbn [push_all]. unfold exec.
  rewrite add_spell_without_cost_map by exact Hnone. simpl fst.
  apply IH, Hnone.
Qed.

(** C8, the defect. [__init__] creates no [spell_cost_map], and no line
    creates one: in every state the object reaches, line 1513 raises
    [AttributeError] on every push, before any write. Six pushes of spells
    that have an icon on the constructed object leave the timeline empty,
    not with five entries. *)
Theorem known_spell_pushes_make_no_entry (RT : Runtime) :
  Forall (fun spell_name => truthy (spell_icon_stem_map !! strip spell_name) = true)
    six_spells /\
  (forall spell_name,
     add_spell_to_timeline spell_name init
     = (init, Raise (AttributeError "spell_cost_map"))) /\
  timeline_entries (push_all six_spells init) = [] /\
  length (timeline_entries (push_all six_spells init)) <> timeline_max_slots /\
  (forall st spells, reachable st -> push_all spells st = st).
Proof.
  split; [repeat constructor|].
  split; [intros spell_name; apply add_spell_without_cost_map; reflexivity|].
  split; [rewrite push_all_without_cost_map by reflexivity; reflexivity|].
  split; [rewrite push_all_without_cost_map by reflexivity; discriminate|].
  intros st spells Hreach. apply push_all_without_cost_map.
  pose proof (reachable_only_three st Hreach) as H3.
  rewrite only_three_written_fields in H3. tauto.
Qed.

(** *** Deduplication *)

Section Window.
Context {RT : Runtime}.

(** Once a line is past the duplicate check, nothing writes the window. *)
Lemma after_checks_keeps_window line (w : list Z) :
  keeps (fun s => processed_lines s = w)
    (when (contains LANCE_LE_SORT line) (spell_cast_block line) >>
     let* combat_ended := combat_ended_local line in
     let* ended := read_local "combat_ended" combat_ended in
     when ended combat_end_block).
Proof.
  unfold spell_cast_block, add_spell_to_timeline, combat_ended_local,
    combat_end_block.
  keeps_all.
Qed.

Lemma window_after_first_feed line st :
  is_duplicate st line = false ->
  processed_lines (exec (parse_log_line line) st)
  = processed_lines (accepted line st).
Proof.
  intros Hnew. rewrite exec_parse_log_line.
  unfold lifecycle_part. rewrite checks_run by exact Hnew.
  apply (after_checks_keeps_window line _ (accepted line st) eq_refl).
Qed.

(** While the window does not overflow, the same line fed twice in
    succession is accepted once: the second feed is a duplicate and
    changes nothing. *)
Lemma second_feed_rejected line st :
  RuntimeLaws RT ->
  is_duplicate st line = false ->
  (length (processed_lines (recorded line st)) <= 1000)%nat ->
  let st1 := exec (parse_log_line line) st in
  is_duplicate st1 line = true /\ exec (parse_log_line line) st1 = st1.
Proof.
  intros Hlaws Hnew Hsize st1.
  assert (Hdup : is_duplicate st1 line = true).
  { unfold is_duplicate, st1. rewrite window_after_first_feed by exact Hnew.
    apply bool_decide_eq_true.
    unfold accepted, flagged, trimmed.
    apply Nat.ltb_ge in Hsize. rewrite Hsize.
    assert (hash (strip line) ∈ processed_lines (recorded line st))
      by (apply (set_add_elem RT Hlaws); left; reflexivity).
    destruct (sac_marker line); assumption. }
  split; [exact Hdup | apply exec_duplicate, Hdup].
Qed.

End Window.

(** C7, the defect. The window holds 1000 fingerprints, and sets iterate
    in increasing order. The line is new; it is accepted and its
    fingerprint recorded, which makes 1001; the trim of line 919 keeps the
    last 500 in iteration order, and the fingerprint just recorded is not
    among them. Fed again at once, the same line is not a duplicate and is
    accepted a second time. *)
Theorem trim_forgets_newest_fingerprint :
  let line := line_rage_140 in
  let st := st_full_window (RT := ordered_runtime) line in
  let st1 := exec (parse_log_line (RT := ordered_runtime) line) st in
  length (processed_lines st) = 1000%nat /\
  is_duplicate (RT := ordered_runtime) st line = false /\
  length (processed_lines st1) = 500%nat /\
  is_duplicate (RT := ordered_runtime) st1 line = false /\
  result (parse_log_line_body (RT := ordered_runtime) line) st1 <> Return /\
  processed_lines (exec (parse_log_line (RT := ordered_runtime) line) st1)
  <> processed_lines st1.
Proof.
  vm_compute. repeat split; discriminate.
Qed.

End Properties.

(* ===================================================================== *)
(** ** Further properties: the whole method, the handlers, the monitor *)
(* ===================================================================== *)

Module Further.
Import PyStr Re Py PyFacts Tracker Properties.
Local Open Scope py_scope.

(** *** Strings *)

Lemma int_acc_nonneg s : forall acc, 0 <= acc -> 0 <= int_acc acc s.
Proof.
  induction s as [|c s IH]; intros acc Hacc; simpl; [exact Hacc|].
  apply IH. destruct (decimal_value c); lia.
Qed.

Lemma int_nonneg s n : int s = Some n -> 0 <= n.
Proof.
  unfold int. destruct (_ <? _); [discriminate|].
  intros [= <-]. apply int_acc_nonneg. lia.
Qed.

(** [int] has a value on up to [max_str_digits] digits, and on no more. *)
Lemma int_is_some s :
  is_Some (int s) <-> Z.of_nat (length s) <= max_str_digits.
Proof.
  unfold int. destruct (Z.ltb_spec max_str_digits (Z.of_nat (length s))).
  - split; [intros [? ?]; discriminate | lia].
  - split; [intros _; assumption | eauto].
Qed.

Lemma lstrip_clean s : clean_left (lstrip s).
Proof.
  induction s as [|c s IH]; simpl; [exact I|].
  destruct (is_space c) eqn:Hc; [exact IH | exact Hc].
Qed.

Lemma lstrip_id s : clean_left s -> lstrip s = s.
Proof. destruct s as [|c s]; simpl; [reflexivity|]. intros ->. reflexivity. Qed.

Lemma lstrip_suffix s : exists p, s = p ++ lstrip s.
Proof.
  induction s as [|c s [p Hp]]; simpl.
  - exists []. reflexivity.
  - destruct (is_space c).
    + exists (c :: p). simpl. f_equal. exact Hp.
    + exists []. reflexivity.
Qed.

Lemma rstrip_prefix s : exists q, s = rstrip s ++ q.
Proof.
  unfold rstrip. destruct (lstrip_suffix (rev s)) as [p Hp].
  exists (rev p). rewrite <- rev_app_distr, <- Hp, rev_involutive. reflexivity.
Qed.

Lemma rstrip_clean_left s : clean_left s -> clean_left (rstrip s).
Proof.
  intros Hs. destruct (rstrip_prefix s) as [q Hq].
  destruct (rstrip s) as [|c r]; [exact I|].
  rewrite Hq in Hs. exact Hs.
Qed.

Lemma rstrip_id s : clean_left (rev s) -> rstrip s = s.
Proof. intros Hs. unfold rstrip. rewrite lstrip_id, rev_involutive; auto. Qed.

Lemma rstrip_clean_right s : clean_left (rev (rstrip s)).
Proof. unfold rstrip. rewrite rev_involutive. apply lstrip_clean. Qed.

(** [strip] leaves a stripped string as it is. *)
Lemma strip_strip s : strip (strip s) = strip s.
Proof.
  unfold strip at 1.
  rewrite lstrip_id by (apply rstrip_clean_left, lstrip_clean).
  apply rstrip_id, rstrip_clean_right.
Qed.

(** X1. From the constructed object, no sequence of log lines writes
    anything but the deduplication window, the special-encounter flag and
    the last caster: the counters stay at 0, the flag stays off, no actor
    is ever tracked, the combat never starts, the overlay is never shown
    and the timeline stays empty. *)
Theorem lines_write_three_attributes (RT : Runtime) (st : State) :
  reachable st ->
  only_three_written st /\
  rage st = 0 /\ tracker st = 0 /\ prey st = false /\
  tracked_player_name st = None /\ in_combat st = false /\
  overlay_visible st = false /\ timeline_entries st = [].
Proof.
  intros Hreach. pose proof (reachable_only_three st Hreach) as H.
  split; [exact H|]. rewrite only_three_written_fields in H. tauto.
Qed.

(** X1 after a cast, a gain, a special-encounter marker and a KO line. *)
Lemma lines_write_three_attributes_witness :
  let st :=
    exec (parse_log_line (RT := ordered_runtime) (u "Sac est KO !"))
      (exec (parse_log_line (RT := ordered_runtime) line_sac_patate)
         (exec (parse_log_line (RT := ordered_runtime) line_rage_140)
            (exec (parse_log_line (RT := ordered_runtime) line_cast_bond) init))) in
  only_three_written st /\
  rage st = 0 /\ tracker st = 0 /\ prey st = false /\
  tracked_player_name st = None /\ in_combat st = false /\
  overlay_visible st = false /\ timeline_entries st = [].
Proof.
  apply (lines_write_three_attributes ordered_runtime).
  do 4 apply reachable_line. apply reachable_init.
Defined.

(** *** The deduplication window *)

Lemma insert_ordered_length x l :
  (length (insert_ordered x l) <= S (length l))%nat.
Proof.
  induction l as [|y l IH]; simpl; [lia|].
  destruct (x <? y); [simpl; lia|].
  destruct (x =? y); simpl; lia.
Qed.

Lemma ordered_runtime_shrinks : set_of_list_shrinks ordered_runtime.
Proof.
  intros l. simpl. induction l as [|x l IH]; simpl; [lia|].
  pose proof (insert_ordered_length x (foldr insert_ordered [] l)). lia.
Qed.

Lemma flagged_window line s :
  processed_lines (flagged line s) = processed_lines s.
Proof. unfold flagged. destruct (sac_marker line); reflexivity. Qed.

(** X2. The window is bounded: a line that is accepted leaves at most 1000
    fingerprints in it, whatever it held before, and a line turned away
    leaves it as it was. So a window within the bound stays within it. *)
Theorem window_stays_bounded (RT : Runtime) (st : State) (line : str) :
  set_of_list_shrinks RT ->
  (is_duplicate st line = false ->
   (length (processed_lines (exec (parse_log_line line) st)) <= 1000)%nat) /\
  ((length (processed_lines st) <= 1000)%nat ->
   (length (processed_lines (exec (parse_log_line line) st)) <= 1000)%nat).
Proof.
  intros Hshrink.
  assert (Hnew : is_duplicate st line = false ->
    (length (processed_lines (exec (parse_log_line line) st)) <= 1000)%nat).
  { intros Hdup. rewrite window_after_first_feed by exact Hdup.
    unfold accepted. rewrite flagged_window. unfold trimmed.
    destruct (_ <? _)%nat eqn:Hlen.
    - cbn [processed_lines set_processed_lines].
      etransitivity; [apply Hshrink|]. rewrite last_n_length. lia.
    - apply Nat.ltb_ge in Hlen. exact Hlen. }
  split; [exact Hnew|].
  intros Hlen. destruct (is_duplicate st line) eqn:Hdup; [|auto].
  rewrite exec_duplicate by exact Hdup. exact Hlen.
Qed.

(** X2 on the full window of 1000. *)
Lemma window_stays_bounded_witness :
  (length (processed_lines
     (exec (parse_log_line (RT := ordered_runtime) line_rage_140)
        (st_full_window (RT := ordered_runtime) line_rage_140))) <= 1000)%nat.
Proof.
  apply (window_stays_bounded ordered_runtime
           (st_full_window (RT := ordered_runtime) line_rage_140) line_rage_140).
  - exact ordered_runtime_shrinks.
  - vm_compute. reflexivity.
Defined.

(** X3. Feeding a line twice in succession is the same as feeding it once,
    as long as its fingerprint does not make the window overflow: the
    second feed is turned away and changes nothing. *)
Theorem same_line_twice_is_once (RT : Runtime) (st : State) (line : str) :
  RuntimeLaws RT ->
  (length (processed_lines (recorded line st)) <= 1000)%nat ->
  exec (parse_log_line line) (exec (parse_log_line line) st)
  = exec (parse_log_line line) st.
Proof.
  intros Hlaws Hsize. destruct (is_duplicate st line) eqn:Hdup.
  - rewrite (exec_duplicate line st Hdup). apply exec_duplicate, Hdup.
  - apply (second_feed_rejected line st Hlaws Hdup Hsize).
Qed.

(** X3 on a cast line and the constructed object. *)
Lemma same_line_twice_is_once_witness :
  exec (parse_log_line (RT := ordered_runtime) line_cast_bond)
    (exec (parse_log_line (RT := ordered_runtime) line_cast_bond) init)
  = exec (parse_log_line (RT := ordered_runtime) line_cast_bond) init.
Proof.
  apply (same_line_twice_is_once ordered_runtime init line_cast_bond).
  - exact ordered_runtime_laws.
  - vm_compute. lia.
Defined.

(** *** Cast lines *)

Section CastLines.
Context {RT : Runtime}.

Lemma spell_cast_block_keeps_wrap line (x : Z * bool * bool * option str) :
  keeps (fun s => (rage s, prey s, pending_rage_loss s, rage_loss_caster s) = x)
    (spell_cast_block line).
Proof. unfold spell_cast_block, add_spell_to_timeline. keeps_all. Qed.

Lemma spell_cast_block_keeps_flag line :
  keeps (fun s => is_sac_patate_combat s = true) (spell_cast_block line).
Proof. unfold spell_cast_block, add_spell_to_timeline. keeps_all. Qed.

(** A bound actor is not rebound by lines 946-950. *)
Lemma spell_cast_block_keeps_tracked line (t : option str) :
  truthy t = true ->
  keeps (fun s => tracked_player_name s = t) (spell_cast_block line).
Proof.
  intros Ht. unfold spell_cast_block, add_spell_to_timeline. cbv zeta.
  apply keeps_bind; [keeps_all | intros _].
  apply keeps_bind; [keeps_all | intros spells].
  apply keeps_bind; [| intros _; keeps_all].
  apply keeps_when, keeps_gets_with. intros s Hs.
  rewrite Hs, Ht. exact Hs.
Qed.

(** During a combat line 961 does not reset the stack counter. *)
Lemma spell_cast_block_keeps_tracker line (t : Z) :
  keeps (fun s => in_combat s = true /\ tracker s = t) (spell_cast_block line).
Proof.
  unfold spell_cast_block, add_spell_to_timeline. cbv zeta.
  apply keeps_bind; [keeps_all | intros _].
  apply keeps_bind; [keeps_all | intros spells].
  apply keeps_bind; [keeps_all | intros _].
  apply keeps_bind; [keeps_all | intros tracked].
  apply keeps_gets_with. intros s Hs.
  destruct Hs as [Hc Hs]. rewrite Hc. cbn [negb andb].
  match goal with
  | |- in_combat (fst (?m s)) = true /\ _ =>
    assert (K : keeps (fun s => in_combat s = true /\ tracker s = t) m)
      by (keeps_all; tauto)
  end.
  exact (K s (conj Hc Hs)).
Qed.

End CastLines.

(** X4. A cast line never writes the wrap counter, the flag or the pending
    confirmation, whatever else it contains, a combat-end phrase included:
    the cast test of line 925 comes first and ends the processing. *)
Theorem cast_line_keeps_wrap_counter (RT : Runtime) (st : State) (line : str) :
  is_cast_line line = true ->
  let st' := exec (parse_log_line line) st in
  rage st' = rage st /\ prey st' = prey st /\
  pending_rage_loss st' = pending_rage_loss st /\
  rage_loss_caster st' = rage_loss_caster st.
Proof.
  intros Hcast st'. subst st'. rewrite exec_cast by exact Hcast.
  destruct (is_duplicate st line); [tauto|].
  pose proof (spell_cast_block_keeps_wrap line _ (accepted line st) eq_refl) as H.
  pose proof (accepted_same_resources line st) as (Hr & _ & Hp & _ & _ & _ & Hq & Hc & _).
  injection H as H1 H2 H3 H4. rewrite H1, H2, H3, H4. tauto.
Qed.

(** X4 on a cast line that carries the combat-end phrase. *)
Lemma cast_line_keeps_wrap_counter_witness :
  let line := u "[Information (combat)] Bob: lance le sort Bond Combat termin√©" in
  let st' := exec (parse_log_line (RT := ordered_runtime) line) st_bob_armed in
  rage st' = 30 /\ prey st' = true /\
  pending_rage_loss st' = true /\ rage_loss_caster st' = Some BOB.
Proof.
  apply (cast_line_keeps_wrap_counter ordered_runtime st_bob_armed
           (u "[Information (combat)] Bob: lance le sort Bond Combat termin√©")).
  vm_compute. reflexivity.
Defined.

(** X5. Once an actor is tracked, no cast line binds another: the binding
    of line 949 is made only while none is tracked. *)
Theorem cast_line_keeps_tracked_actor (RT : Runtime) (st : State) (line : str) :
  is_cast_line line = true ->
  truthy (tracked_player_name st) = true ->
  tracked_player_name (exec (parse_log_line line) st) = tracked_player_name st.
Proof.
  intros Hcast Ht. rewrite exec_cast by exact Hcast.
  destruct (is_duplicate st line); [reflexivity|].
  apply (spell_cast_block_keeps_tracked line _ Ht (accepted line st)).
  apply accepted_tracked_actor.
Qed.

(** X6. During a combat a cast line leaves the stack counter as it is, and
    the combat goes on: the reset of lines 961-964 is for the cast that
    starts the combat. *)
Theorem cast_in_combat_keeps_stack_counter (RT : Runtime) (st : State) (line : str) :
  is_cast_line line = true ->
  in_combat st = true ->
  in_combat (exec (parse_log_line line) st) = true /\
  tracker (exec (parse_log_line line) st) = tracker st.
Proof.
  intros Hcast Hc. rewrite exec_cast by exact Hcast.
  destruct (is_duplicate st line); [tauto|].
  apply (spell_cast_block_keeps_tracker line _ (accepted line st)).
  pose proof (accepted_same_but_window_and_flag line st) as Hacc.
  rewrite Hacc. simpl. tauto.
Qed.

(** X5 on Bob's cast of a signature spell with Alice tracked. *)
Lemma cast_line_keeps_tracked_actor_witness :
  tracked_player_name
    (exec (parse_log_line (RT := ordered_runtime) line_cast_bond) st_configured)
  = Some ALICE.
Proof.
  apply (cast_line_keeps_tracked_actor ordered_runtime st_configured line_cast_bond).
  - vm_compute. reflexivity.
  - vm_compute. reflexivity.
Defined.

(** X6 on a cast in the middle of Alice's combat. *)
Lemma cast_in_combat_keeps_stack_counter_witness :
  in_combat (exec (parse_log_line (RT := ordered_runtime) line_cast_bond) st_configured)
  = true /\
  tracker (exec (parse_log_line (RT := ordered_runtime) line_cast_bond) st_configured)
  = 20.
Proof.
  apply (cast_in_combat_keeps_stack_counter ordered_runtime st_configured line_cast_bond).
  - vm_compute. reflexivity.
  - reflexivity.
Defined.

Lemma keeps_get_attr_with {S A B} (I : S -> Prop) name (f : S -> option A)
    (k : A -> M S B) :
  (forall s a, I s -> f s = Some a -> I (fst (k a s))) ->
  keeps I (bind (get_attr name f) k).
Proof.
  intros Hk s Hs. unfold bind, get_attr.
  destruct (f s) as [a|] eqn:Hf; simpl; [apply (Hk s a Hs Hf) | exact Hs].
Qed.

Section CastBinding.
Context {RT : Runtime}.

(** Lines 943-950 bind no one when the spell is not a signature spell. *)
Lemma spell_cast_block_binds_on_signature line t o :
  (forall spells, o = Some spells -> spell_of line ∉ spells) ->
  keeps (fun s => tracked_player_name s = t /\ ougi_spells s = o)
    (spell_cast_block line).
Proof.
  intros Hnot. unfold spell_cast_block, add_spell_to_timeline. cbv zeta.
  apply keeps_bind; [keeps_all; tauto | intros _].
  apply keeps_get_attr_with. intros s spells [Ht Ho] Hspells.
  assert (Hout : spell_of line ∉ spells) by (apply Hnot; congruence).
  fold (spell_of line).
  rewrite (bool_decide_eq_false_2 _ Hout). cbn [when andb].
  match goal with
  | |- tracked_player_name (fst (?m s)) = t /\ _ =>
    assert (K : keeps (fun s => tracked_player_name s = t /\ ougi_spells s = o) m)
      by (keeps_all; tauto)
  end.
  exact (K s (conj Ht Ho)).
Qed.

(** After line 940 nothing writes [last_spell_caster]. *)
Lemma spell_cast_block_records_caster line c s :
  caster_of line = Some c ->
  last_spell_caster (fst (spell_cast_block line s)) = Some c.
Proof.
  intros Hc. unfold caster_of, player_spell_match in Hc.
  unfold spell_cast_block, add_spell_to_timeline. cbv zeta.
  destruct (match search re_player_spell_colon line with
            | Some m => Some m
            | None => search re_player_spell_space line
            end) as [m|]; [|discriminate].
  injection Hc as Hc. rewrite Hc. cbn [matched when].
  erewrite bind_value; [|reflexivity].
  match goal with
  | |- last_spell_caster (fst (?m ?s0)) = _ =>
    assert (K : keeps (fun s => last_spell_caster s = Some c) m) by keeps_all;
    exact (K s0 eq_refl)
  end.
Qed.

End CastBinding.

(** X7. A cast line binds an actor only on a signature spell: when the
    spell it names is not in [ougi_spells], or the object has no such
    attribute, the tracked actor is left as it was. *)
Theorem cast_binds_on_signature_spell_only
    (RT : Runtime) (st : State) (line : str) :
  is_cast_line line = true ->
  (forall spells, ougi_spells st = Some spells -> spell_of line ∉ spells) ->
  tracked_player_name (exec (parse_log_line line) st) = tracked_player_name st.
Proof.
  intros Hcast Hnot. rewrite exec_cast by exact Hcast.
  destruct (is_duplicate st line); [reflexivity|].
  apply (spell_cast_block_binds_on_signature line _ _ Hnot (accepted line st)).
  rewrite (accepted_same_but_window_and_flag line st). simpl. tauto.
Qed.

(** X7 on a cast of Fulgur, not a signature spell, with no one tracked. *)
Lemma cast_binds_on_signature_spell_only_witness :
  let line := u "[Information (combat)] Bob: lance le sort Fulgur" in
  tracked_player_name
    (exec (parse_log_line (RT := ordered_runtime) line)
       (set_tracked_player_name None st_configured))
  = None.
Proof.
  apply (cast_binds_on_signature_spell_only ordered_runtime
           (set_tracked_player_name None st_configured)
           (u "[Information (combat)] Bob: lance le sort Fulgur")).
  - vm_compute. reflexivity.
  - intros spells Hspells. injection Hspells as <-.
    apply (proj1 (bool_decide_eq_false _)). vm_compute. reflexivity.
Defined.

(** X8. A cast line that is accepted and names its caster leaves that
    caster, stripped, as the last caster, also when the rest of its
    processing fails. *)
Theorem cast_line_records_caster (RT : Runtime) (st : State) (line c : str) :
  is_cast_line line = true ->
  is_duplicate st line = false ->
  caster_of line = Some c ->
  last_spell_caster (exec (parse_log_line line) st) = Some c.
Proof.
  intros Hcast Hdup Hc. rewrite exec_cast, Hdup by exact Hcast.
  apply spell_cast_block_records_caster, Hc.
Qed.

(** X8 on the space-separated form, from the constructed object. *)
Lemma cast_line_records_caster_witness :
  last_spell_caster
    (exec (parse_log_line (RT := ordered_runtime)
             (u "[Information (combat)]  Bob le Iop  lance le sort Bond")) init)
  = Some (u "Bob le Iop").
Proof.
  apply (cast_line_records_caster ordered_runtime init
           (u "[Information (combat)]  Bob le Iop  lance le sort Bond")
           (u "Bob le Iop")).
  - vm_compute. reflexivity.
  - vm_compute. reflexivity.
  - vm_compute. reflexivity.
Defined.

(** X9. The special-encounter flag, once set, stays set until a combat
    end: no other line clears it. *)
Theorem special_flag_stays_until_combat_end
    (RT : Runtime) (st : State) (line : str) :
  is_sac_patate_combat st = true ->
  is_combat_end_line st line = false ->
  is_sac_patate_combat (exec (parse_log_line line) st) = true.
Proof.
  intros Hflag Hend.
  assert (Hacc : is_sac_patate_combat (accepted line st) = true)
    by (rewrite accepted_flag, Hflag; reflexivity).
  destruct (is_cast_line line) eqn:Hcast.
  - rewrite exec_cast by exact Hcast.
    destruct (is_duplicate st line); [exact Hflag|].
    apply (spell_cast_block_keeps_flag line (accepted line st) Hacc).
  - rewrite exec_plain.
    + destruct (is_duplicate st line); assumption.
    + unfold is_plain_line. unfold is_combat_end_line in Hend.
      rewrite Hcast in *. simpl in *. rewrite Hend. reflexivity.
Qed.

(** X9 on a KO-free damage line in a special encounter. *)
Lemma special_flag_stays_until_combat_end_witness :
  is_sac_patate_combat
    (exec (parse_log_line (RT := ordered_runtime) line_damage) st_configured)
  = true.
Proof.
  apply (special_flag_stays_until_combat_end ordered_runtime st_configured line_damage).
  - reflexivity.
  - vm_compute. reflexivity.
Defined.

(** *** The handlers of lines 1032-1227 *)

(** A gain line whose total has 4301 digits. *)
Example rage_block_on_4301_digits :
  let line := u "[Information (combat)] Bob: rage (+" ++ repeat 57%N 4301
              ++ u " Niv.)" in
  is_rage_gain line = true /\
  result (rage_block line) init = Raise ValueError /\
  rage (exec (rage_block line) init) = 0 /\
  tracked_player_name (exec (rage_block line) init) = Some BOB.
Proof. vm_compute. repeat split. Qed.

(** A total of 4300 digits is converted, and wraps to 99. *)
Example rage_block_on_4300_digits :
  let line := u "[Information (combat)] Bob: rage (+" ++ repeat 57%N 4300
              ++ u " Niv.)" in
  result (rage_block line) init = Return /\
  rage (exec (rage_block line) init) = 99.
Proof. vm_compute. repeat split. Qed.

(** X10. The wrap-counter handler of lines 1036-1061, on a line its
    pattern matches. Where [int] converts the total, the handler returns
    with the counter never negative: the total modulo 100, at most 99, when
    the total is 100 or more, and the total itself otherwise. Where the
    total has more than [max_str_digits] digits, [int] raises at line 1043
    and the counter and the flag are left as they were. *)
Theorem rage_block_range (st : State) (line : str) (m : captures) :
  search re_rage line = Some m ->
  let st' := exec (rage_block line) st in
  match int (group 1 m) with
  | Some n =>
    result (rage_block line) st = Return /\
    0 <= rage st' /\
    (100 <= n -> rage st' = n mod 100 /\ rage st' <= 99) /\
    (n < 100 -> rage st' = n)
  | None =>
    max_str_digits < Z.of_nat (length (group 1 m)) /\
    result (rage_block line) st = Raise ValueError /\
    rage st' = rage st /\ prey st' = prey st
  end.
Proof.
  intros Hm st'. subst st'.
  destruct (int (group 1 m)) as [n|] eqn:Hn.
  - destruct (rage_block_run line m n st Hm Hn) as (Hr & _ & Hres).
    rewrite Hr. apply int_nonneg in Hn.
    split; [exact Hres|].
    destruct (Z.leb_spec 100 n).
    + pose proof (Z.mod_pos_bound n 100). lia.
    + lia.
  - destruct (rage_block_too_long line m st Hm Hn) as (Hr & Hp & Hres).
    split; [|tauto].
    pose proof (int_is_some (group 1 m)) as Hs. rewrite Hn in Hs.
    destruct (Z.ltb_spec max_str_digits (Z.of_nat (length (group 1 m))));
      [assumption|].
    exfalso. destruct (proj2 Hs ltac:(assumption)); discriminate.
Qed.

(** X10 on a total of 140. *)
Lemma rage_block_range_witness :
  result (rage_block line_rage_140) st_bob_armed = Return /\
  0 <= rage (exec (rage_block line_rage_140) st_bob_armed) <= 99.
Proof.
  pose proof (rage_block_range st_bob_armed line_rage_140 [(1%nat, u "140")])
    as H.
  assert (Hn : int (group 1 [(1%nat, u "140")]) = Some 140)
    by (vm_compute; reflexivity).
  cbv zeta in H. rewrite Hn in H.
  destruct H as (Hres & H0 & H1 & _).
  - vm_compute. reflexivity.
  - split; [exact Hres|]. split; [exact H0 | apply H1; lia].
Defined.

Lemma tracker_in_range_set (v : Z) (s : State) :
  0 <= v <= 50 -> tracker_in_range (set_tracker v s).
Proof. intros Hv. exact Hv. Qed.

Ltac range_assign :=
  apply keeps_modify; intros ? ?;
  first [ assumption
        | apply tracker_in_range_set;
          repeat match goal with
                 | H : int _ = Some _ |- _ => apply int_nonneg in H
                 end; lia ].

Ltac range_step :=
  lazymatch goal with
  | |- keeps _ (bind (to_int _) _) => apply keeps_to_int_bind; intros ? ?
  | |- keeps _ (bind _ _) => apply keeps_bind; [|intros ?]
  | |- keeps _ (ret _) => apply keeps_ret
  | |- keeps _ (gets _) => apply keeps_gets
  | |- keeps _ return_ => apply keeps_return
  | |- keeps _ (raise _) => apply keeps_raise
  | |- keeps _ (get_attr _ _) => apply keeps_get_attr
  | |- keeps _ (read_local _ _) => apply keeps_read_local
  | |- keeps _ (when _ _) => apply keeps_when
  | |- keeps _ (call _) => apply keeps_call
  | |- keeps _ (assign _ _) => range_assign
  | |- keeps _ (modify _) => apply keeps_modify; intros ? ?; assumption
  | |- keeps _ (if ?b then _ else _) => destruct b
  | |- keeps _ (match ?x with _ => _ end) => destruct x
  end.

Ltac range_all := cbv zeta; repeat (range_step; cbv zeta).

Section StackRange.
Context {RT : Runtime}.

Lemma tracker_loss_range line (f : Z -> Z) :
  (forall t, 0 <= t <= 50 -> 0 <= f t <= 50) ->
  keeps tracker_in_range (tracker_loss line f).
Proof.
  intros Hf. unfold tracker_loss.
  apply keeps_gets_with. intros s Hs.
  destruct (search re_player_tracker_loss line); [|exact Hs].
  destruct (truthy (tracked_player_name s)); [|exact Hs].
  cbn [when]. destruct (bool_decide _); [|exact Hs].
  apply (Hf _ Hs).
Qed.

Lemma resource_handlers_range line :
  keeps tracker_in_range (resource_handlers line).
Proof.
  pose proof (tracker_loss_range line (fun t => Z.max 0 (t - 10))) as H1.
  pose proof (tracker_loss_range line (fun _ => 0)) as H2.
  unfold resource_handlers, rage_block, turn_pass_block, tracker_block,
    tracker_loss_isole_block, tracker_gain_block, tracker_loss_compulsion_block,
    tracker_damage_block, preparation_block, damage_block,
    lose_prey, cancel_pending.
  range_all; first [apply H1 | apply H2]; intros; lia.
Qed.

Lemma lifecycle_part_range line : keeps tracker_in_range (lifecycle_part line).
Proof.
  unfold lifecycle_part, duplicate_check, skip_or_record, trim_processed_lines,
    sac_patate_check, spell_cast_block, add_spell_to_timeline,
    combat_ended_local, combat_end_block.
  range_all.
Qed.

End StackRange.

(** X11. Every statement of [parse_log_line] that writes the stack counter
    keeps it between 0 and 50: the generic gain caps at 50, the tagged gain
    at 4, the expiry of lines 1140-1149 stops at 0, and the other writes
    are resets to 0. *)
Theorem stack_counter_stays_in_range (RT : Runtime) (st : State) (line : str) :
  0 <= tracker st <= 50 ->
  0 <= tracker (exec (parse_log_line line) st) <= 50 /\
  0 <= tracker (exec (resource_handlers line) st) <= 50.
Proof.
  intros Hs. split.
  - apply (keeps_try_except_pass tracker_in_range).
    + unfold parse_log_line_body. apply keeps_bind;
        [apply lifecycle_part_range | intros _; apply resource_handlers_range].
    + exact Hs.
  - apply (resource_handlers_range line st Hs).
Qed.

(** X11 on the expiry line with the counter at 3. *)
Lemma stack_counter_stays_in_range_witness :
  let line := u "[Information (combat)] Bob: n'est plus sous l'emprise de 'tracker' (Iop isol√©)" in
  0 <= tracker (exec (parse_log_line (RT := ordered_runtime) line) st_bob_armed) <= 50 /\
  0 <= tracker (exec (resource_handlers line) st_bob_armed) <= 50.
Proof.
  apply (stack_counter_stays_in_range ordered_runtime st_bob_armed).
  vm_compute. split; discriminate.
Defined.

(** X12. The expiry handlers of lines 1140-1149 and 1166-1175 apply to the
    tracked actor only: on a line that names another actor, or none, or
    while no actor is tracked, they leave the state as it is. *)
Theorem stack_loss_gate (st : State) (line : str) :
  (forall m, search re_player_tracker_loss line = Some m ->
             truthy (tracked_player_name st) = true ->
             tracked_player_name st <> Some (group 1 m)) ->
  exec (tracker_loss_isole_block line) st = st /\
  exec (tracker_loss_compulsion_block line) st = st.
Proof.
  intros Hother.
  assert (Hloss : forall f, tracker_loss line f st = (st, Value tt)).
  { intros f. unfold tracker_loss, bind, gets. cbn [fst snd].
    destruct (search re_player_tracker_loss line) as [m|] eqn:Hm; [|reflexivity].
    destruct (truthy (tracked_player_name st)) eqn:Ht; [|reflexivity].
    cbn [when]. rewrite bool_decide_eq_false_2; [reflexivity|].
    intros Heq. apply (Hother m eq_refl eq_refl). symmetry. exact Heq. }
  unfold exec, tracker_loss_isole_block, tracker_loss_compulsion_block, when.
  split.
  - destruct (contains TRACKER_LOSS_ISOLE line); [|reflexivity].
    erewrite bind_value; [reflexivity | apply Hloss].
  - destruct (contains TRACKER_LOSS_COMPULSION line); [|reflexivity].
    erewrite bind_value; [reflexivity | apply Hloss].
Qed.

(** X12 on Bob's expiry line with Alice tracked. *)
Lemma stack_loss_gate_witness :
  let line := u "[Information (combat)] Bob: n'est plus sous l'emprise de 'tracker' (Iop isol√©)" in
  exec (tracker_loss_isole_block line) st_configured = st_configured /\
  exec (tracker_loss_compulsion_block line) st_configured = st_configured.
Proof.
  apply (stack_loss_gate st_configured).
  intros m Hm _. vm_compute in Hm. injection Hm as <-.
  vm_compute. discriminate.
Defined.

(** *** The tagged gain is shadowed *)

Lemma greedy_mono {R R'} p s (k : str -> option R) (k' : str -> option R') :
  (forall t, is_Some (k t) -> is_Some (k' t)) ->
  is_Some (greedy p s k) -> is_Some (greedy p s k').
Proof.
  intros Hk. induction s as [|c s IH]; simpl; [apply Hk|].
  destruct (p c); [|apply Hk].
  destruct (greedy p s k) as [x|].
  - intros _. destruct (greedy p s k'); [eauto|].
    exfalso. apply (is_Some_None (A := R')). apply IH. eauto.
  - intros Hs. destruct (greedy p s k'); [eauto | apply Hk, Hs].
Qed.

(** A pattern matches under a continuation that accepts more. *)
Lemma rmatch_mono r : forall s cs cs' k k',
  (forall t c c', is_Some (k t c) -> is_Some (k' t c')) ->
  is_Some (rmatch r s cs k) -> is_Some (rmatch r s cs' k').
Proof.
  induction r as [l|p|p|p|r1 IH1 r2 IH2|r1 IH1 r2 IH2|i r IH];
    intros s cs cs' k k' Hk; simpl.
  - destruct (prefix_rest l s); [apply Hk | exact id].
  - destruct s as [|c s]; [exact id|]. destruct (p c); [apply Hk | exact id].
  - destruct s as [|c s]; [exact id|]. destruct (p c); [|exact id].
    apply greedy_mono. intros t. apply Hk.
  - apply greedy_mono. intros t. apply Hk.
  - apply IH1. intros t c c'. apply IH2, Hk.
  - destruct (rmatch r1 s cs k) eqn:H1.
    + intros _.
      assert (H1' : is_Some (rmatch r1 s cs' k'))
        by (apply (IH1 s cs cs' k k' Hk); rewrite H1; eauto).
      destruct H1' as [x ->]. eauto.
    + intros H2. destruct (rmatch r1 s cs' k'); [eauto|].
      apply (IH2 s cs cs' k k' Hk H2).
  - apply IH. intros t c c'. apply Hk.
Qed.

Lemma prefix_rest_app a b s :
  prefix_rest (a ++ b) s
  = match prefix_rest a s with
    | Some s' => prefix_rest b s'
    | None => None
    end.
Proof.
  revert s. induction a as [|c a IH]; intros s; simpl; [reflexivity|].
  destruct s as [|d s]; [reflexivity|]. destruct (c =? d)%N; [apply IH | reflexivity].
Qed.

Lemma search_matches r s :
  is_Some (search r s) <->
  exists t, t `suffix_of` s /\ is_Some (rmatch r t [] (fun _ cs => Some cs)).
Proof.
  induction s as [|c s IH]; simpl.
  - destruct (rmatch r [] [] _) eqn:Hm.
    + split; [intros _; exists []; split; [done|rewrite Hm; eauto] | eauto].
    + split; [intros [? ?]; discriminate|].
      intros (t & Ht & Hs). apply suffix_nil_inv in Ht. subst t.
      rewrite Hm in Hs. exact Hs.
  - destruct (rmatch r (c :: s) [] _) eqn:Hm.
    + split; [intros _; exists (c :: s); split; [done|rewrite Hm; eauto] | eauto].
    + rewrite IH. split.
      * intros (t & Ht & Hs). exists t. split; [apply suffix_cons_r, Ht | exact Hs].
      * intros (t & Ht & Hs). destruct t as [|x t].
        -- exists []. split; [apply suffix_nil | exact Hs].
        -- apply suffix_cons_inv in Ht as [Heq|Ht].
           ++ rewrite Heq, Hm in Hs. destruct Hs; discriminate.
           ++ exists (x :: t). split; assumption.
Qed.

Lemma cat_tail_mono r1 r2 x y s k k' :
  (forall t c c', is_Some (rmatch x t c k) -> is_Some (rmatch y t c' k')) ->
  is_Some (rmatch (Cat r1 (Cat r2 x)) s [] k) ->
  is_Some (rmatch (Cat r1 (Cat r2 y)) s [] k').
Proof.
  intros Hxy. simpl.
  apply rmatch_mono. intros t1 c1 c1'.
  apply rmatch_mono. intros t2 c2 c2'. apply Hxy.
Qed.

Lemma lit_prefix_mono a b r t c c' k :
  is_Some (rmatch (Cat (Lit (a ++ b)) r) t c k) ->
  is_Some (rmatch (Lit a) t c' (fun _ cs => Some cs)).
Proof.
  simpl. rewrite prefix_rest_app.
  destruct (prefix_rest a t); [eauto | intros [? ?]; discriminate].
Qed.

Lemma tagged_gain_is_gain_at t :
  is_Some (rmatch re_tracker_gain t [] (fun _ cs => Some cs)) ->
  is_Some (rmatch re_tracker t [] (fun _ cs => Some cs)).
Proof.
  unfold re_tracker_gain, re_tracker, lit. cbn [seq].
  change (u " Niv.) (") with (u " Niv.)" ++ u " (").
  apply cat_tail_mono. intros t1 c1 c1'. apply lit_prefix_mono.
Qed.

(** X13. Every line that the tagged-gain pattern of line 1153 matches is
    matched by the generic pattern of line 1131 as well. The generic
    handler comes first and ends the method on such a line: it returns
    with the counter at no more than 50, or, on a total of more than
    [max_str_digits] digits, [int] raises at line 1133 and nothing is
    written. Either way the tagged handler, with its cap of 4, never sees
    a line. *)
Theorem tagged_gain_is_shadowed (st : State) (line : str) :
  is_tagged_stack_gain line = true ->
  is_stack_gain line = true /\
  (forall a, result (tracker_block line) st <> Value a) /\
  (result (tracker_block line) st = Return /\
   tracker (exec (tracker_block line) st) <= 50
   \/ tracker_block line st = (st, Raise ValueError)).
Proof.
  intros Htag. unfold is_tagged_stack_gain, is_stack_gain in *.
  assert (Hgain : is_Some (search re_tracker line)).
  { apply search_matches.
    destruct (search re_tracker_gain line) as [m|] eqn:Hm; [|discriminate].
    assert (Hs : is_Some (search re_tracker_gain line)) by (rewrite Hm; eauto).
    apply search_matches in Hs as (t & Ht & Hs).
    exists t. split; [exact Ht | apply tagged_gain_is_gain_at, Hs]. }
  destruct Hgain as [m Hm]. rewrite Hm. split; [reflexivity|].
  destruct (int (group 1 m)) as [n|] eqn:Hn.
  - destruct (tracker_block_run line m n st Hm Hn) as [Ht Hres].
    split; [rewrite Hres; discriminate|].
    left. split; [exact Hres | rewrite Ht; lia].
  - pose proof (tracker_block_too_long line m st Hm Hn) as Hraise.
    split; [unfold result; rewrite Hraise; discriminate|].
    right. exact Hraise.
Qed.

(** X13 on a tagged gain of 3. *)
Lemma tagged_gain_is_shadowed_witness :
  let line := u "[Information (combat)] Bob: tracker (+3 Niv.) (rage)" in
  is_stack_gain line = true /\
  forall a, result (tracker_block line) st_configured <> Value a.
Proof.
  destruct (tagged_gain_is_shadowed st_configured
              (u "[Information (combat)] Bob: tracker (+3 Niv.) (rage)"))
    as (Hgain & Hstop & _).
  - vm_compute. reflexivity.
  - split; [exact Hgain | exact Hstop].
Defined.

(** *** The turn-pass handler *)

(** X14. The turn-pass handler of lines 1065-1128, on a line with one of
    its phrases, clears the flag and the timeline and returns, whoever
    passes the turn, and writes neither counter. When the turn owner is an
    actor other than the tracked one, it leaves the visibility and the
    pending confirmation as they are. *)
Theorem turn_pass_block_clears (st : State) (line : str) :
  is_turn_pass line = true ->
  let st' := exec (turn_pass_block line) st in
  result (turn_pass_block line) st = Return /\
  prey st' = false /\ timeline_entries st' = [] /\
  rage st' = rage st /\ tracker st' = tracker st /\
  (truthy (last_spell_caster st) = true ->
   last_spell_caster st <> tracked_player_name st ->
   overlay_visible st' = overlay_visible st /\
   is_ougi_turn st' = is_ougi_turn st /\
   pending_rage_loss st' = pending_rage_loss st).
Proof.
  intros Hpass st'. subst st'. unfold is_turn_pass in Hpass.
  unfold result, exec, turn_pass_block. rewrite Hpass. cbn [when].
  destruct st as [r t p cr ct cp pe rc rs ic tp sp ot ov pl lc le tl os cm cts].
  cbn [last_spell_caster tracked_player_name rage tracker prey overlay_visible
       is_ougi_turn pending_rage_loss timeline_entries].
  unfold bind, gets, lose_prey, cancel_pending, when, assign, modify, ret, return_.
  cbn [fst snd last_spell_caster tracked_player_name].
  destruct (truthy lc) eqn:Howner, (truthy tp) eqn:Htracked,
    (bool_decide (lc = tp)) eqn:Heq, pe, p, tl;
    simpl; repeat split;
    first [ reflexivity
          | discriminate
          | apply bool_decide_eq_true in Heq; contradiction ].
Qed.

(** X14 on a turn passed by Bob with Alice tracked. *)
Lemma turn_pass_block_clears_witness :
  let st := set_last_spell_caster (Some BOB) st_configured in
  let st' := exec (turn_pass_block line_turn_pass) st in
  prey st' = false /\ timeline_entries st' = [] /\
  rage st' = 30 /\ tracker st' = 20.
Proof.
  destruct (turn_pass_block_clears (set_last_spell_caster (Some BOB) st_configured)
              line_turn_pass) as (_ & Hp & Ht & Hr & Hk & _).
  - vm_compute. reflexivity.
  - repeat split; assumption.
Defined.

(** *** Pushes on the timeline, in any state *)

(** X15. [add_spell_to_timeline] writes nothing but the timeline, whatever
    the spell and whether or not the object has a cost map, and a timeline
    of at most [timeline_max_slots + 1] entries stays so. *)
Theorem push_writes_timeline_only (st : State) (spell_name : str) :
  let st' := exec (add_spell_to_timeline spell_name) st in
  st' = set_timeline_entries (timeline_entries st') st /\
  ((length (timeline_entries st) <= timeline_max_slots + 1)%nat ->
   (length (timeline_entries st') <= timeline_max_slots + 1)%nat) /\
  (spell_cost_map st = None -> st' = st).
Proof.
  intros st'. subst st'.
  destruct (spell_cost_map st) as [cost_map|] eqn:Hmap.
  - destruct (known cost_map spell_name) eqn:Hknown.
    + rewrite (add_known_spell st cost_map spell_name Hmap Hknown).
      split; [destruct st; reflexivity|]. split; [|discriminate].
      intros _. cbn [timeline_entries set_timeline_entries].
      rewrite last_n_length. apply Nat.le_min_l.
    + rewrite (add_unknown_spell st cost_map spell_name Hmap Hknown).
      split; [destruct st; reflexivity|]. split; [exact id | reflexivity].
  - assert (Hst : exec (add_spell_to_timeline spell_name) st = st).
    { unfold exec, add_spell_to_timeline, bind, get_attr. rewrite Hmap. reflexivity. }
    rewrite Hst. split; [destruct st; reflexivity|]. split; [exact id | reflexivity].
Qed.

(** X15 on seven pushes, the last on a timeline of six. *)
Lemma push_writes_timeline_only_witness :
  (length (timeline_entries
     (exec (add_spell_to_timeline (u "Bond"))
        (push_all six_spells st_with_costs))) <= timeline_max_slots + 1)%nat.
Proof.
  apply (push_writes_timeline_only (push_all six_spells st_with_costs) (u "Bond")).
  vm_compute. lia.
Defined.

(** *** The log monitor *)

Import Monitor.

Lemma emitted_app e1 e2 : emitted (e1 ++ e2) = emitted e1 ++ emitted e2.
Proof.
  induction e1 as [|[l|d] e1 IH]; simpl; [reflexivity | f_equal; exact IH | exact IH].
Qed.

Lemma emit_lines_emitted new_lines :
  emitted (emit_lines new_lines)
  = List.filter (fun l => truthy (Some l)) (map strip new_lines).
Proof.
  induction new_lines as [|l ls IH]; simpl; [reflexivity|].
  destruct (strip l); simpl; [exact IH | f_equal; exact IH].
Qed.

Lemma emit_lines_stripped new_lines :
  Forall (fun l => l <> [] /\ strip l = l) (emitted (emit_lines new_lines)).
Proof.
  induction new_lines as [|l ls IH]; simpl; [constructor|].
  destruct (strip l) as [|c r] eqn:Hl; simpl; [exact IH|].
  constructor; [|exact IH].
  split; [discriminate|]. rewrite <- Hl. apply strip_strip.
Qed.

Lemma turn_emitted p t errors :
  Forall (fun l => l <> [] /\ strip l = l)
    (emitted (effects_of (turn p t errors))).
Proof.
  destruct p as [|[|l ls] pos|]; simpl; try constructor.
  - apply (emit_lines_stripped (l :: ls)).
  - unfold effects_of. destruct (max_errors <=? errors + 1); simpl; constructor.
Qed.

Lemma loop_emitted polls : forall t errors,
  Forall (fun l => l <> [] /\ strip l = l)
    (emitted (effects_of (loop polls t errors))).
Proof.
  induction polls as [|p rest IH]; intros t errors; simpl.
  - destruct (monitoring t); constructor.
  - destruct (monitoring t); [|constructor].
    pose proof (turn_emitted p t errors) as Hturn.
    destruct (turn p t errors) as [[[t' errors'] effects] [|]]; [exact Hturn|].
    specialize (IH t' errors').
    destruct (loop rest t' errors') as [[[t'' errors''] effects'] stop].
    unfold effects_of in *. simpl in *.
    rewrite emitted_app. apply Forall_app. split; assumption.
Qed.

(** X16. Every line [run] emits is stripped and not empty. So the
    fingerprint [parse_log_line] takes of a line it receives from the
    monitor is the hash of the line as it stands. *)
Theorem monitor_emits_stripped_lines
    (RT : Runtime) (polls : list poll) (t : Thread) :
  Forall (fun line =>
            line <> [] /\ strip line = line /\
            forall st, is_duplicate st line
                       = bool_decide (hash line ∈ processed_lines st))
    (emitted (effects_of (run polls t))).
Proof.
  eapply Forall_impl; [apply (loop_emitted polls t 0)|].
  intros line [Hne Hstrip]. split; [exact Hne|]. split; [exact Hstrip|].
  intros st. unfold is_duplicate. rewrite Hstrip. reflexivity.
Qed.

Example monitor_emits_example :
  emitted (effects_of (run [FileRead [u "  Combat  "; u "   "; u "fin"] 12]
                         {| monitoring := true; last_position := 0 |}))
  = [u "Combat"; u "fin"].
Proof. vm_compute. reflexivity. Qed.

Lemma emit_lines_sleeps new_lines : sleeps_in_bounds (emit_lines new_lines).
Proof.
  unfold sleeps_in_bounds.
  induction new_lines as [|x xs IH]; simpl; [constructor|].
  destruct (strip x); [exact IH | constructor; [exact I | exact IH]].
Qed.

Lemma turn_sleeps p t errors :
  0 <= errors ->
  0 <= errors_of (turn p t errors) /\
  sleeps_in_bounds (effects_of (turn p t errors)).
Proof.
  intros Hpos.
  destruct p as [|[|l ls] pos|].
  - split; [unfold errors_of; simpl; lia|]. repeat constructor; lia.
  - split; [exact Hpos|]. repeat constructor.
  - split; [unfold errors_of; simpl; lia|]. exact (emit_lines_sleeps (l :: ls)).
  - unfold errors_of, effects_of, sleeps_in_bounds. simpl.
    destruct (max_errors <=? errors + 1) eqn:Hmax; simpl; (split; [lia|]).
    + constructor.
    + repeat constructor.
      * assert (1 <= 2 ^ (errors + 1)) by (apply Z.pow_le_mono_r with (b := 0); lia).
        lia.
      * lia.
Qed.

Lemma loop_sleeps polls : forall t errors,
  0 <= errors -> sleeps_in_bounds (effects_of (loop polls t errors)).
Proof.
  induction polls as [|p rest IH]; intros t errors Hpos; simpl.
  - destruct (monitoring t); constructor.
  - destruct (monitoring t); [|constructor].
    pose proof (turn_sleeps p t errors Hpos) as [Herr Hturn].
    destruct (turn p t errors) as [[[t' errors'] effects] [|]]; [exact Hturn|].
    specialize (IH t' errors' Herr).
    destruct (loop rest t' errors') as [[[t'' errors''] effects'] stop].
    unfold effects_of, sleeps_in_bounds in *. simpl in *.
    apply Forall_app. split; assumption.
Qed.

(** X17. [run] never sleeps more than 10 seconds, nor less than 1 when it
    sleeps whole seconds, whatever the file system answers and however
    many failures there are. *)
Theorem monitor_sleeps_in_bounds (polls : list poll) (t : Thread) :
  sleeps_in_bounds (effects_of (run polls t)).
Proof. apply loop_sleeps. lia. Qed.

Example monitor_backoff_example :
  effects_of (run [Failure; Failure; Failure; Failure; Failure; Failure]
                {| monitoring := true; last_position := 0 |})
  = [Slept (Seconds 2); Slept (Seconds 4); Slept (Seconds 8); Slept (Seconds 10)].
Proof. vm_compute. reflexivity. Qed.

Lemma failures_cons p rest :
  failures (p :: rest) = (if is_failure p then S (failures rest) else failures rest).
Proof. unfold failures. simpl. destruct (is_failure p); reflexivity. Qed.

Lemma loop_quiet polls : forall t errors,
  monitoring t = true ->
  forallb is_quiet polls = true ->
  0 <= errors < max_errors ->
  ended (loop polls t errors)
  = (max_errors <=? errors + Z.of_nat (failures polls)) /\
  errors_of (loop polls t errors)
  = Z.min max_errors (errors + Z.of_nat (failures polls)).
Proof.
  unfold max_errors.
  induction polls as [|p rest IH]; intros t errors Hon Hquiet Herr.
  - simpl. rewrite Hon. unfold ended, errors_of, failures. simpl.
    split; [symmetry; apply Z.leb_gt; lia | lia].
  - simpl in Hquiet. apply andb_true_iff in Hquiet as [Hp Hrest].
    rewrite failures_cons.
    destruct p as [|[|l ls] pos|]; try discriminate; cbn [loop]; rewrite Hon.
    + cbn [turn is_failure].
      specialize (IH (set_last_position pos t) errors Hon Hrest Herr).
      destruct (loop rest (set_last_position pos t) errors)
        as [[[t'' errors''] effects'] stop].
      exact IH.
    + cbn [turn is_failure]. unfold max_errors.
      destruct (5 <=? errors + 1) eqn:Hmax.
      * apply Z.leb_le in Hmax. unfold ended, errors_of. cbn [fst snd].
        split; [symmetry; apply Z.leb_le; lia | lia].
      * apply Z.leb_gt in Hmax.
        specialize (IH t (errors + 1) Hon Hrest ltac:(lia)).
        destruct (loop rest t (errors + 1)) as [[[t'' errors''] effects'] stop].
        unfold ended, errors_of in *. cbn [fst snd] in *.
        destruct IH as [-> ->].
        split; [f_equal; lia | lia].
Qed.

(** X18. Failures need not be consecutive to stop the monitor: a read that
    brings no line leaves the error counter as it is. On answers that are
    failures or empty reads only, [run] ends exactly when the fifth failure
    comes, and until then goes on. *)
Theorem monitor_stops_at_fifth_failure (polls : list poll) (t : Thread) :
  monitoring t = true ->
  forallb is_quiet polls = true ->
  ended (run polls t) = (5 <=? failures polls)%nat /\
  errors_of (run polls t) = Z.min 5 (Z.of_nat (failures polls)).
Proof.
  intros Hon Hquiet.
  destruct (loop_quiet polls t 0 Hon Hquiet) as [He Hc]; [unfold max_errors; lia|].
  unfold run. rewrite He, Hc. unfold max_errors. split; [|reflexivity].
  destruct (Nat.leb_spec 5 (failures polls)).
  - apply Z.leb_le. lia.
  - apply Z.leb_gt. lia.
Qed.

(** X18 on five failures with empty reads in between. *)
Lemma monitor_stops_at_fifth_failure_witness :
  let polls := [Failure; FileRead [] 0; Failure; Failure; FileRead [] 0;
                Failure; FileRead [] 0; Failure; Failure] in
  let t := {| monitoring := true; last_position := 0 |} in
  ended (run polls t) = true /\ errors_of (run polls t) = 5.
Proof.
  apply (monitor_stops_at_fifth_failure
           [Failure; FileRead [] 0; Failure; Failure; FileRead [] 0;
            Failure; FileRead [] 0; Failure; Failure]
           {| monitoring := true; last_position := 0 |}).
  - reflexivity.
  - reflexivity.
Defined.

(** A read that brings lines, and a missing file, make the loop forget
    the failures counted so far. *)
Lemma loop_forgets_failures
    (p : poll) (rest : list poll) (t : Thread) (errors errors' : Z) :
  monitoring t = true ->
  is_quiet p = false ->
  loop (p :: rest) t errors = loop (p :: rest) t errors'.
Proof.
  intros Hon Hp.
  destruct p as [|[|l ls] pos|]; try discriminate; cbn [loop turn];
    rewrite Hon; reflexivity.
Qed.

Lemma turn_monitoring p t errors :
  monitoring (thread_of (turn p t errors)) = monitoring t.
Proof.
  destruct p as [|[|l ls] pos|]; try reflexivity.
  unfold thread_of. simpl. destruct (max_errors <=? errors + 1); reflexivity.
Qed.

Lemma loop_monitoring polls : forall t errors,
  monitoring (thread_of (loop polls t errors)) = monitoring t.
Proof.
  induction polls as [|p rest IH]; intros t errors; simpl.
  - destruct (monitoring t) eqn:Hon; exact Hon.
  - destruct (monitoring t) eqn:Hon; [|exact Hon].
    pose proof (turn_monitoring p t errors) as Hturn.
    destruct (turn p t errors) as [[[t' errors'] effects] [|]];
      unfold thread_of in *; simpl in *; [congruence|].
    specialize (IH t' errors').
    destruct (loop rest t' errors') as [[[t'' errors''] effects'] stop].
    simpl in *. congruence.
Qed.

(** The loop on answers in two parts. *)
Lemma loop_app pre rest : forall t errors,
  loop (pre ++ rest) t errors
  = match loop pre t errors with
    | (t', errors', effects, true) => (t', errors', effects, true)
    | (t', errors', effects, false) =>
      match loop rest t' errors' with
      | (t'', errors'', effects', stop) => (t'', errors'', effects ++ effects', stop)
      end
    end.
Proof.
  induction pre as [|p pre IH]; intros t errors.
  - simpl. destruct (monitoring t) eqn:Hon.
    + destruct (loop rest t errors) as [[[t'' errors''] effects'] stop]. reflexivity.
    + destruct rest; simpl; rewrite Hon; reflexivity.
  - simpl. destruct (monitoring t); [|reflexivity].
    destruct (turn p t errors) as [[[t' errors'] effects] [|]]; [reflexivity|].
    rewrite IH.
    destruct (loop pre t' errors') as [[[t1 errors1] effects1] [|]]; [reflexivity|].
    destruct (loop rest t1 errors1) as [[[t2 errors2] effects2] stop].
    rewrite app_assoc. reflexivity.
Qed.

(** X19. A read that brings lines, or a missing file, starts the count of
    failures again: if [run] has not ended before such an answer, and only
    failures and empty reads follow it, [run] ends exactly when five
    failures have followed. *)
Theorem monitor_restarts_count
    (pre : list poll) (p : poll) (post : list poll) (t : Thread) :
  monitoring t = true ->
  ended (run pre t) = false ->
  is_quiet p = false ->
  forallb is_quiet post = true ->
  ended (run (pre ++ p :: post) t) = (5 <=? failures post)%nat.
Proof.
  intros Hon Hpre Hp Hpost. unfold run in *. rewrite loop_app.
  pose proof (loop_monitoring pre t 0) as Hmon.
  destruct (loop pre t 0) as [[[t1 errors1] effects1] stop1].
  unfold ended, thread_of in *. cbn [fst snd] in *. subst stop1.
  rewrite Hon in Hmon.
  rewrite (loop_forgets_failures p post t1 errors1 0 Hmon Hp).
  assert (Hstep : exists t2 effects2,
             monitoring t2 = true /\
             loop (p :: post) t1 0
             = match loop post t2 0 with
               | (t'', errors'', effects', stop) =>
                 (t'', errors'', effects2 ++ effects', stop)
               end).
  { destruct p as [|[|l ls] pos|]; try discriminate; cbn [loop turn]; rewrite Hmon.
    - exists t1, [Slept (Seconds 1)]. split; [exact Hmon | reflexivity].
    - exists (set_last_position pos t1), (emit_lines (l :: ls)).
      split; [exact Hmon | reflexivity]. }
  destruct Hstep as (t2 & effects2 & Hon2 & ->).
  destruct (loop_quiet post t2 0 Hon2 Hpost) as [He _]; [unfold max_errors; lia|].
  unfold ended in He.
  destruct (loop post t2 0) as [[[t3 errors3] effects3] stop3].
  cbn [fst snd] in *. rewrite He. unfold max_errors.
  destruct (Nat.leb_spec 5 (failures post)).
  - apply Z.leb_le. lia.
  - apply Z.leb_gt. lia.
Qed.

(** X19 on four failures, a read with a line, and four failures more. *)
Lemma monitor_restarts_count_witness :
  ended (run ([Failure; Failure; Failure; Failure]
                ++ FileRead [u "x"] 2 :: [Failure; Failure; Failure; Failure])
           {| monitoring := true; last_position := 0 |})
  = (5 <=? failures [Failure; Failure; Failure; Failure])%nat.
Proof.
  apply (monitor_restarts_count [Failure; Failure; Failure; Failure]
           (FileRead [u "x"] 2) [Failure; Failure; Failure; Failure]
           {| monitoring := true; last_position := 0 |});
    reflexivity.
Defined.

(** *** Reading the caster off a cast line *)

Lemma prefix_rest_self p s : prefix_rest p (p ++ s) = Some s.
Proof.
  induction p as [|c p IH]; simpl; [reflexivity|].
  rewrite N.eqb_refl. exact IH.
Qed.

(** A greedy run over [a], all in the class, stops where the class stops
    when the continuation accepts there. *)
Lemma greedy_run {R} p a b (k : str -> option R) :
  forallb p a = true ->
  match b with c :: _ => p c = false | [] => True end ->
  is_Some (k b) ->
  greedy p (a ++ b) k = k b.
Proof.
  intros Ha Hb Hk. induction a as [|x a IH]; simpl.
  - destruct b as [|c b]; [reflexivity|]. simpl. rewrite Hb. reflexivity.
  - simpl in Ha. apply andb_true_iff in Ha as [Hx Ha].
    rewrite Hx, (IH Ha). destruct Hk as [r Hr]. rewrite Hr. reflexivity.
Qed.

(** A pattern that opens with a literal is not found before the first
    occurrence of the literal's first character. *)
Lemma search_skip c l r pre s :
  c ∉ pre ->
  search (Cat (Lit (c :: l)) r) (pre ++ s) = search (Cat (Lit (c :: l)) r) s.
Proof.
  induction pre as [|x pre IH]; intros Hpre; [reflexivity|].
  apply not_elem_of_cons in Hpre as [Hx Hpre].
  cbn [app search rmatch prefix_rest].
  destruct (N.eqb_spec c x) as [->|_]; [contradiction|]. apply IH, Hpre.
Qed.

Lemma search_here r s cs :
  rmatch r s [] (fun _ cs => Some cs) = Some cs -> search r s = Some cs.
Proof. intros H. destruct s; simpl; rewrite H; reflexivity. Qed.

Lemma take_app_minus {A} (a b : list A) :
  take (length (a ++ b) - length b) (a ++ b) = a.
Proof.
  rewrite length_app. replace (length a + length b - length b)%nat with (length a) by lia.
  apply take_app_length.
Qed.

Lemma not_colon_colon : not_colon 58%N = false.
Proof. vm_compute. reflexivity. Qed.

Lemma name_then_cast_phrase name rest cs :
  name <> [] ->
  forallb not_colon name = true ->
  rmatch (Cat (Grp 1 (Many1 not_colon))
            (Cat (Lit (u ":")) (Cat (Many1 is_space) (Lit (u "lance le sort")))))
    (name ++ u ": lance le sort" ++ rest) cs (fun _ cs => Some cs)
  = Some ((1%nat, name) :: cs).
Proof.
  intros Hne Hname.
  destruct name as [|n0 name]; [contradiction|].
  simpl in Hname. apply andb_true_iff in Hname as [Hn0 Hname].
  change (u ": lance le sort") with (58%N :: 32%N :: u "lance le sort").
  change (u ":") with [58%N].
  set (Y := (58%N :: 32%N :: u "lance le sort") ++ rest).
  cbn [rmatch app]. rewrite Hn0.
  rewrite greedy_run; [| exact Hname | exact not_colon_colon |].
  - subst Y. cbn [app prefix_rest]. rewrite N.eqb_refl.
    change (is_space 32%N) with true. cbv iota.
    change (u "lance le sort") with (108%N :: u "ance le sort").
    cbn [app greedy]. change (is_space 108%N) with false. cbv iota.
    change (108%N :: u "ance le sort" ++ rest) with ((108%N :: u "ance le sort") ++ rest).
    rewrite prefix_rest_self.
    do 3 f_equal.
    change (n0 :: name ++ ?x) with ((n0 :: name) ++ x).
    apply take_app_minus.
  - subst Y. cbn [app prefix_rest]. rewrite N.eqb_refl.
    change (is_space 32%N) with true. cbv iota.
    change (u "lance le sort") with (108%N :: u "ance le sort").
    cbn [app greedy]. change (is_space 108%N) with false. cbv iota.
    change (108%N :: u "ance le sort" ++ rest) with ((108%N :: u "ance le sort") ++ rest).
    rewrite prefix_rest_self. eauto.
Qed.

Lemma contains_unfold sub s :
  contains sub s
  = match prefix_rest sub s with
    | Some _ => true
    | None => match s with [] => false | _ :: s' => contains sub s' end
    end.
Proof. destruct s; reflexivity. Qed.

Lemma contains_intro sub a b : contains sub (a ++ sub ++ b) = true.
Proof.
  induction a as [|x a IH]; rewrite contains_unfold.
  - cbn [app]. rewrite prefix_rest_self. reflexivity.
  - cbn [app]. destruct (prefix_rest sub (x :: a ++ sub ++ b)); [reflexivity | exact IH].
Qed.

Lemma information_combat_head :
  INFORMATION_COMBAT = 91%N :: u "Information (combat)]".
Proof. vm_compute. reflexivity. Qed.

Lemma information_combat_literal :
  u "[Information (combat)]" = 91%N :: u "Information (combat)]".
Proof. vm_compute. reflexivity. Qed.

Lemma cast_phrase_head :
  u ": lance le sort" = [58%N; 32%N] ++ u "lance le sort".
Proof. vm_compute. reflexivity. Qed.

(** The combat tag, white space, and what the rest of a pattern matches. *)
Lemma tag_space_then r pre ws x cs :
  91%N ∉ pre ->
  ws <> [] ->
  forallb is_space ws = true ->
  clean_left x ->
  rmatch r x [] (fun _ cs => Some cs) = Some cs ->
  search (Cat (lit "[Information (combat)]") (Cat (Many1 is_space) r))
    (pre ++ INFORMATION_COMBAT ++ ws ++ x)
  = Some cs.
Proof.
  intros Hpre Hne Hws Hx Hr.
  unfold lit. rewrite information_combat_literal, information_combat_head.
  rewrite search_skip by exact Hpre.
  apply search_here. cbn [rmatch].
  rewrite prefix_rest_self.
  destruct ws as [|w ws]; [contradiction|].
  simpl in Hws. apply andb_true_iff in Hws as [Hw Hws].
  cbn [app]. rewrite Hw.
  rewrite greedy_run; [exact Hr | exact Hws | | rewrite Hr; eauto].
  destruct x; [exact I | exact Hx].
Qed.

(** X20. The caster is read back from a cast line in the colon form: with
    no [[] before the combat tag, white space after it, and a name without
    a colon that does not start with white space, the line is a cast line
    and the caster it names is the name, stripped. *)
Theorem caster_of_cast_line (pre ws name rest : str) :
  91%N ∉ pre ->
  ws <> [] -> forallb is_space ws = true ->
  name <> [] -> forallb not_colon name = true -> clean_left name ->
  is_cast_line (cast_line pre ws name rest) = true /\
  caster_of (cast_line pre ws name rest) = Some (strip name).
Proof.
  intros Hpre Hne Hws Hname Hcolon Hclean. split.
  - unfold is_cast_line, cast_line, LANCE_LE_SORT.
    rewrite cast_phrase_head.
    rewrite <- (app_assoc [58%N; 32%N]), !(app_assoc _ _ (u "lance le sort" ++ rest)).
    apply contains_intro.
  - unfold caster_of, player_spell_match, re_player_spell_colon, cast_line.
    cbn [seq].
    rewrite (tag_space_then _ pre ws (name ++ u ": lance le sort" ++ rest)
               [(1%nat, name)] Hpre Hne Hws).
    + reflexivity.
    + destruct name; [contradiction | exact Hclean].
    + apply name_then_cast_phrase; assumption.
Qed.

(** X20 on a line with a time stamp. *)
Lemma caster_of_cast_line_witness :
  is_cast_line (cast_line (u "12:00:01 ") (u " ") (u "Bob le Iop ") (u " Bond")) = true /\
  caster_of (cast_line (u "12:00:01 ") (u " ") (u "Bob le Iop ") (u " Bond"))
  = Some (strip (u "Bob le Iop ")).
Proof.
  apply (caster_of_cast_line (u "12:00:01 ") (u " ") (u "Bob le Iop ") (u " Bond")).
  - apply (proj1 (bool_decide_eq_false _)). vm_compute. reflexivity.
  - vm_compute. discriminate.
  - vm_compute. reflexivity.
  - vm_compute. discriminate.
  - vm_compute. reflexivity.
  - vm_compute. reflexivity.
Defined.

End Further.
